(** * Tessie MCP server: the transport client, the auto-wake helpers and the
      tool handlers of [src/index.ts] (server version 1.1.0), as a shallow
      embedding.

    The program is a sequence of awaited effects (environment reads, clock
    reads, timers and HTTP requests).  It is embedded in a state-and-exception
    monad over a [World] that holds the process environment, the wall clock,
    the behaviour of the remote service and the log of the effects performed
    so far.  Every function below keeps the name it has in the source. *)

From Stdlib Require Import ZArith String List Bool Lia Ascii DecimalString.
Import ListNotations.

Local Open Scope string_scope.
Local Open Scope Z_scope.

Set Warnings "-register-all".

(** ** JavaScript values *)

(** An [Error] object; the program only ever builds and reads [message]. *)
Record JsError : Type := Error { message : string }.

(** Template-literal rendering of an integer-valued number (HTTP status
    codes, [WAKE_TIMEOUT_MS / 1000]). *)
Definition String_Z (z : Z) : string := NilZero.string_of_int (Z.to_int z).

(** Truthiness of a [string | undefined] value: [undefined] and the empty
    string are falsy. *)
Definition truthy (v : option string) : bool :=
  match v with
  | Some s => negb (s =? "")%string
  | None => false
  end.

(** [haystack.includes(needle)] *)
Definition includes (haystack needle : string) : bool :=
  match String.index 0 needle haystack with
  | Some _ => true
  | None => false
  end.

Inductive Method : Type := GET | POST.

Definition Method_eqb (a b : Method) : bool :=
  match a, b with
  | GET, GET | POST, POST => true
  | _, _ => false
  end.

(** Zod enums of the schemas, after validation. *)
Inductive DistanceFormat : Type := mi | km.
Inductive TemperatureFormat : Type := f | c.
Inductive PressureFormat : Type := bar | kpa | psi.
Inductive Seat : Type := driver | passenger | rear_left | rear_center | rear_right.

Definition DistanceFormat_str (d : DistanceFormat) : string :=
  match d with mi => "mi" | km => "km" end.
Definition TemperatureFormat_str (t : TemperatureFormat) : string :=
  match t with f => "f" | c => "c" end.
Definition PressureFormat_str (p : PressureFormat) : string :=
  match p with bar => "bar" | kpa => "kpa" | psi => "psi" end.
Definition Seat_str (s : Seat) : string :=
  match s with
  | driver => "driver" | passenger => "passenger" | rear_left => "rear_left"
  | rear_center => "rear_center" | rear_right => "rear_right"
  end.

(** [process.env]: each variable is a string or [undefined]. *)
Record Env : Type := {
  TESSIE_API_TOKEN : option string;
  TESSIE_DEFAULT_VIN : option string;
  TESSIE_DISTANCE_FORMAT : option string;
  TESSIE_TEMP_FORMAT : option string;
  TESSIE_PRESSURE_FORMAT : option string
}.

(** A [URL] object: [href] is the string it was built from (the parser's
    normalisation of it is not modelled) and [searchParams] its list of
    search parameters.  [toString()] is not modelled; a request records the
    [URL] itself. *)
Record URL : Type := { href : string; searchParams : list (string * string) }.

(** [URLSearchParams.prototype.set]: overwrite the first pair named [key]
    and drop the later ones, or append a new pair. *)
Fixpoint set_first (key value : string) (l : list (string * string))
  : list (string * string) :=
  match l with
  | [] => [(key, value)]
  | (k, v) :: rest =>
      if (k =? key)%string
      then (key, value) :: filter (fun p => negb (fst p =? key)%string) rest
      else (k, v) :: set_first key value rest
  end.

Definition searchParams_set (u : URL) (key value : string) : URL :=
  {| href := href u; searchParams := set_first key value (searchParams u) |}.

(** How an awaited computation ends.  [Unfinished] is produced only by a
    loop that is cut off by its iteration bound; [ensureAwake_finishes]
    shows that the program never ends that way. *)
Inductive Completion (A : Type) : Type :=
| Normal (a : A)
| Throw (e : JsError)
| Unfinished.
Arguments Normal {A} a.
Arguments Throw {A} e.
Arguments Unfinished {A}.

(** How a promise settles, as [Promise.allSettled] reports it. *)
Inductive PromiseSettledResult (A : Type) : Type :=
| fulfilled (value : A)
| rejected (reason : JsError).
Arguments fulfilled {A} value.
Arguments rejected {A} reason.

Section Server.

(** JavaScript numbers are IEEE doubles.  The program never computes with
    the numbers it is handed: it renders them with [String(...)] or passes
    them on.  Both the type and its rendering are left abstract. *)
Context {number : Type} (String_number : number -> string).

(** The URL parser of the platform: the search parameters that [new URL(s)]
    finds in the string [s] (the text after a [?], decoded).  A path that
    holds a [?] of its own gives the URL a query before [tessieRequest]
    adds to it. *)
Context (URL_query : string -> list (string * string)).

(** [new URL(s)] *)
Definition new_URL (s : string) : URL :=
  {| href := s; searchParams := URL_query s |}.

(** A parameter value: [string | number | boolean]; [undefined] is [None]
    in [Params]. *)
Inductive Scalar : Type :=
| SString (s : string)
| SNumber (n : number)
| SBoolean (b : bool).

(** [String(value)] *)
Definition ToString (v : Scalar) : string :=
  match v with
  | SString s => s
  | SNumber n => String_number n
  | SBoolean true => "true"
  | SBoolean false => "false"
  end.

(** [Record<string, string | number | boolean | undefined>], as the list
    [Object.entries] enumerates. *)
Definition Params : Type := list (string * option Scalar).

(** Values exchanged as JSON.  An object is the list of its members, under
    distinct keys. *)
Inductive Json : Type :=
| JNull
| JBoolean (b : bool)
| JNumber (n : number)
| JString (s : string)
| JArray (items : list Json)
| JObject (members : list (string * Json)).

Fixpoint member (key : string) (members : list (string * Json)) : option Json :=
  match members with
  | [] => None
  | (k, v) :: rest => if (k =? key)%string then Some v else member key rest
  end.

(** ** HTTP *)

Record Request : Type := {
  req_url : URL;
  req_method : Method;
  req_headers : list (string * string);
  req_body : option (list (string * Json))   (* the value given to JSON.stringify *)
}.

(** A [Response]: [resp_text] is what [text()] resolves to, [resp_json] how
    [json()] settles. *)
Record Response : Type := {
  resp_status : Z;
  resp_content_type : option string;
  resp_text : string;
  resp_json : PromiseSettledResult Json
}.

(** [response.ok] *)
Definition resp_ok (r : Response) : bool :=
  (200 <=? resp_status r) && (resp_status r <=? 299).

(** What awaiting [fetch] gives, and how long the exchange took in
    milliseconds, the reading of the body included. *)
Inductive FetchResult : Type :=
| Rejected (e : JsError)
| Resolved (r : Response).

Record Reply : Type := { duration : N; result : FetchResult }.

Inductive Event : Type :=
| EvFetch (req : Request) (reply : Reply)
| EvTimeout (ms : Z).

(** The world the process runs in.  [now] is the clock [Date.now()] reads,
    in milliseconds; only waits and exchanges with the service take time.
    [remote] is the service: it answers a request knowing everything that
    happened before.  [lateness] is the timer queue: how many milliseconds
    after the delay asked for a timer fires ([setTimeout] never fires
    early).  [trace] is the log of effects, oldest first. *)
Record World : Type := {
  env : Env;
  now : Z;
  remote : list Event -> Request -> Reply;
  lateness : list Event -> Z -> N;
  trace : list Event
}.

(** ** The monad of awaited effects *)

Definition M (A : Type) : Type := World -> Completion A * World.

Definition ret {A} (a : A) : M A := fun w => (Normal a, w).
Definition throw {A} (e : JsError) : M A := fun w => (Throw e, w).
Definition unfinished {A} : M A := fun w => (Unfinished, w).

Definition bind {A B} (m : M A) (k : A -> M B) : M B :=
  fun w =>
    match m w with
    | (Normal a, w') => k a w'
    | (Throw e, w') => (Throw e, w')
    | (Unfinished, w') => (Unfinished, w')
    end.

Notation "x <- m ;; k" := (bind m (fun x => k))
  (at level 100, m at next level, right associativity).
Notation "m ;;; k" := (bind m (fun _ => k))
  (at level 100, right associativity).

Definition process_env : M Env := fun w => (Normal (env w), w).

(** [Date.now()] *)
Definition Date_now : M Z := fun w => (Normal (now w), w).

Definition log (w : World) (e : Event) (elapsed : Z) : World :=
  {| env := env w; now := now w + elapsed; remote := remote w;
     lateness := lateness w; trace := (trace w ++ [e])%list |}.

(** [await fetch(url, options)] *)
Definition fetch (req : Request) : M Response :=
  fun w =>
    let reply := remote w (trace w) req in
    let w' := log w (EvFetch req reply) (Z.of_N (duration reply)) in
    match result reply with
    | Rejected e => (Throw e, w')
    | Resolved r => (Normal r, w')
    end.

(** [await new Promise((resolve) => setTimeout(resolve, ms))]: the wait
    ends [ms] milliseconds later, or later than that. *)
Definition sleep (ms : Z) : M unit :=
  fun w => (Normal tt,
            log w (EvTimeout ms) (ms + Z.of_N (lateness w (trace w) ms))).

(** [await response.json()] *)
Definition response_json (r : Response) : M Json :=
  match resp_json r with
  | fulfilled value => ret value
  | rejected reason => throw reason
  end.

(** ** Configuration *)

Definition BASE_URL : string := "https://api.tessie.com".

Definition getToken : M string :=
  e <- process_env ;;
  let token := TESSIE_API_TOKEN e in
  if negb (truthy token)
  then throw (Error ("TESSIE_API_TOKEN environment variable is required. " ++
                     "Get your token at https://dash.tessie.com/settings/api"))
  else ret (match token with Some t => t | None => "" end).

Definition getDefaultVin : M (option string) :=
  e <- process_env ;; ret (TESSIE_DEFAULT_VIN e).

Definition getDefaultDistanceFormat : M (option DistanceFormat) :=
  e <- process_env ;;
  match TESSIE_DISTANCE_FORMAT e with
  | Some v => if (v =? "mi")%string then ret (Some mi)
              else if (v =? "km")%string then ret (Some km) else ret None
  | None => ret None
  end.

Definition getDefaultTempFormat : M (option TemperatureFormat) :=
  e <- process_env ;;
  match TESSIE_TEMP_FORMAT e with
  | Some v => if (v =? "f")%string then ret (Some f)
              else if (v =? "c")%string then ret (Some c) else ret None
  | None => ret None
  end.

Definition getDefaultPressureFormat : M (option PressureFormat) :=
  e <- process_env ;;
  match TESSIE_PRESSURE_FORMAT e with
  | Some v => if (v =? "psi")%string then ret (Some psi)
              else if (v =? "bar")%string then ret (Some bar)
              else if (v =? "kpa")%string then ret (Some kpa) else ret None
  | None => ret None
  end.

(** ** HTTP helpers *)

Record TessieRequestOptions : Type := {
  method : option Method;
  path : string;
  params : option Params;
  body : option (list (string * Json))
}.

(** The [for (const [key, value] of Object.entries(params))] loop. *)
Definition append_params (url : URL) (ps : Params) : URL :=
  fold_left
    (fun u entry =>
       match snd entry with
       | Some value => searchParams_set u (fst entry) (ToString value)
       | None => u
       end)
    ps url.

Definition tessieRequest (o : TessieRequestOptions) : M Json :=
  let method := match method o with Some m => m | None => GET end in
  let url := new_URL (BASE_URL ++ path o) in
  token <- getToken ;;
  let headers := [("Authorization", "Bearer " ++ token);
                  ("Accept", "application/json")] in
  let url := match params o with
             | Some ps => append_params url ps
             | None => url
             end in
  let with_body := match body o with
                   | Some _ => Method_eqb method POST
                   | None => false
                   end in
  let headers := if with_body
                 then (headers ++ [("Content-Type", "application/json")])%list
                 else headers in
  let fetchOptions_body := if with_body then body o else None in
  response <- fetch {| req_url := url; req_method := method;
                       req_headers := headers;
                       req_body := fetchOptions_body |} ;;
  if negb (resp_ok response) then
    let text := resp_text response in
    throw (Error ("Tessie API error " ++ String_Z (resp_status response) ++
                  ": " ++ text))
  else
    let contentType := match resp_content_type response with
                       | Some t => t
                       | None => ""
                       end in
    if includes contentType "application/json"
    then response_json response
    else ret (JObject [("raw", JString (resp_text response))]).

Definition get (path : string) (params : option Params) : M Json :=
  tessieRequest {| method := Some GET; path := path; params := params;
                   body := None |}.

Definition post (path : string) (params : option Params)
  (body : option (list (string * Json))) : M Json :=
  tessieRequest {| method := Some POST; path := path; params := params;
                   body := body |}.

(** ** Auto-wake helpers *)

Definition WAKE_POLL_INTERVAL_MS : Z := 3000.
Definition WAKE_TIMEOUT_MS : Z := 90000.

(** [data?.status === "awake"] *)
Definition status_is_awake (data : Json) : bool :=
  match data with
  | JObject members =>
      match member "status" members with
      | Some (JString s) => (s =? "awake")%string
      | _ => false
      end
  | _ => false
  end.

Definition isVehicleAwake (vin : string) : M bool :=
  data <- get ("/" ++ vin ++ "/status") None ;;
  ret (status_is_awake data).

(** The [while (Date.now() < deadline)] loop of [ensureAwake].  The result
    says how the loop was left: [true] by the [return] in its body, [false]
    because the condition failed.  [bound] caps the number of condition
    tests. *)
Fixpoint wake_poll (bound : nat) (vin : string) (deadline : Z) : M bool :=
  match bound with
  | O => unfinished
  | S bound' =>
      t <- Date_now ;;
      if t <? deadline then
        sleep WAKE_POLL_INTERVAL_MS ;;;
        awake <- isVehicleAwake vin ;;
        if awake then ret true else wake_poll bound' vin deadline
      else ret false
  end.

(** Every pass through the loop body takes at least [WAKE_POLL_INTERVAL_MS],
    so the condition is tested at most this many times. *)
Definition WAKE_POLL_BOUND : nat :=
  S (Z.to_nat (WAKE_TIMEOUT_MS / WAKE_POLL_INTERVAL_MS)).

Definition ensureAwake (vin : string) : M unit :=
  (* Fast path: already awake *)
  awake <- isVehicleAwake vin ;;
  if awake then ret tt else
  (* Send wake command *)
  post ("/" ++ vin ++ "/wake") None None ;;;
  t <- Date_now ;;
  let deadline := t + WAKE_TIMEOUT_MS in
  returned <- wake_poll WAKE_POLL_BOUND vin deadline ;;
  if returned then ret tt else
  throw (Error ("Vehicle " ++ vin ++ " did not wake within " ++
                String_Z (WAKE_TIMEOUT_MS / 1000) ++ "s. " ++
                "Try calling wake_vehicle manually and retrying.")).

(** Sends a command to the vehicle, auto-waking it first if needed. *)
Definition command (vin : string) (commandPath : string)
  (params : option Params) : M Json :=
  ensureAwake vin ;;;
  post commandPath params None.

(** ** Reusable Zod schemas *)

(** The [transform] of [VinSchema], applied to the [string | undefined]
    that [z.string().optional()] accepted. *)
Definition VinSchema (val : option string) : M string :=
  vin <- (if truthy val then ret val else getDefaultVin) ;;
  if negb (truthy vin)
  then throw (Error ("VIN is required. Provide it as a parameter or set " ++
                     "TESSIE_DEFAULT_VIN environment variable."))
  else ret (match vin with Some s => s | None => "" end).

(** ** Server setup *)

(** The value a tool handler returns,
    [{ content: [{ type: "text", text: JSON.stringify(data, null, 2) }] }],
    kept as the [data] that is rendered. *)
Inductive ToolResult : Type := TextContent (data : Json).

(** [server.tool(name, description, { vin: VinSchema, ... }, handler)]: the
    SDK parses the arguments with the schema and calls the handler with the
    parsed values.  [vin] is the only field with a transform; the other
    fields reach the handler as they were validated. *)
Definition vehicle_tool {A} (handler : string -> M A) (vin : option string)
  : M A :=
  parsed <- VinSchema vin ;;
  handler parsed.

(** [given ?? fallback()] *)
Definition nullish {A} (given : option A) (fallback : M (option A))
  : M (option A) :=
  match given with
  | Some v => ret (Some v)
  | None => fallback
  end.

Definition boolean (b : option bool) : option Scalar := option_map SBoolean b.
Definition numeric (n : option number) : option Scalar := option_map SNumber n.
Definition text (s : option string) : option Scalar := option_map SString s.

(** *** Resources *)

(** The URI of a [ReadResourceRequest], after the handler's tests against
    ["tessie://vehicles"], [/^tessie:\/\/(.+)\/state$/] and
    [/^tessie:\/\/(.+)\/status$/]; the regular-expression matching itself
    is not modelled. *)
Inductive ResourceUri : Type :=
| uri_vehicles
| uri_state (vin : string)
| uri_status (vin : string)
| uri_unknown (uri : string).

Definition ReadResource (uri : ResourceUri) : M Json :=
  match uri with
  | uri_vehicles => get "/vehicles" None
  | uri_state vin =>
      get ("/" ++ vin ++ "/state") (Some [("use_cache", Some (SBoolean true))])
  | uri_status vin => get ("/" ++ vin ++ "/status") None
  | uri_unknown uri => throw (Error ("Unknown resource URI: " ++ uri))
  end.

(** *** Vehicle state and data, drives and charges: the tools whose handler
    is one [get].  A constructor is a call of the tool of that name with its
    parsed arguments. *)
Inductive ReadTool : Type :=
| get_vehicles (only_active : option bool)
| get_vehicle_state (vin : string) (use_cache : option bool)
| get_vehicle_status (vin : string)
| get_battery (vin : string)
| get_battery_health (vin : string) (from to : option number)
    (distance_format : option DistanceFormat)
| get_location (vin : string)
| get_weather (vin : string)
| get_tire_pressure (vin : string) (pressure_format : option PressureFormat)
    (from to : option number)
| get_consumption_since_charge (vin : string)
| get_firmware_alerts (vin : string)
| get_drives (vin : string) (from to : option number)
    (distance_format : option DistanceFormat)
    (temperature_format : option TemperatureFormat)
    (timezone tag exclude_tag : option string)
    (minimum_distance limit : option number)
| get_drive_path (vin : string) (from to : option number)
    (details simplify : option bool)
| get_charges (vin : string) (from to : option number)
    (distance_format : option DistanceFormat) (timezone : option string)
    (superchargers_only : option bool)
    (minimum_energy_added limit : option number)
| get_idles (vin : string) (from to : option number)
    (distance_format : option DistanceFormat) (timezone : option string)
    (limit : option number).

(** The path of the handler's [get]. *)
Definition read_path (t : ReadTool) : string :=
  match t with
  | get_vehicles _ => "/vehicles"
  | get_vehicle_state vin _ => "/" ++ vin ++ "/state"
  | get_vehicle_status vin => "/" ++ vin ++ "/status"
  | get_battery vin => "/" ++ vin ++ "/battery"
  | get_battery_health vin _ _ _ => "/" ++ vin ++ "/battery_health"
  | get_location vin => "/" ++ vin ++ "/location"
  | get_weather vin => "/" ++ vin ++ "/weather"
  | get_tire_pressure vin _ _ _ => "/" ++ vin ++ "/tire_pressure"
  | get_consumption_since_charge vin => "/" ++ vin ++ "/consumption_since_charge"
  | get_firmware_alerts vin => "/" ++ vin ++ "/firmware_alerts"
  | get_drives vin _ _ _ _ _ _ _ _ _ => "/" ++ vin ++ "/drives"
  | get_drive_path vin _ _ _ _ => "/" ++ vin ++ "/path"
  | get_charges vin _ _ _ _ _ _ _ => "/" ++ vin ++ "/charges"
  | get_idles vin _ _ _ _ _ => "/" ++ vin ++ "/idles"
  end.

Definition distance (d : option DistanceFormat) : option Scalar :=
  option_map (fun x => SString (DistanceFormat_str x)) d.
Definition temperature_unit (t : option TemperatureFormat) : option Scalar :=
  option_map (fun x => SString (TemperatureFormat_str x)) t.
Definition pressure (p : option PressureFormat) : option Scalar :=
  option_map (fun x => SString (PressureFormat_str x)) p.

(** The object literal given to [get] as [params] ([None]: no second
    argument). *)
Definition read_params (t : ReadTool) : M (option Params) :=
  match t with
  | get_vehicles only_active =>
      ret (Some [("only_active", boolean only_active)])
  | get_vehicle_state _ use_cache =>
      ret (Some [("use_cache", boolean use_cache)])
  | get_vehicle_status _ | get_battery _ | get_location _ | get_weather _
  | get_consumption_since_charge _ | get_firmware_alerts _ => ret None
  | get_battery_health _ from to distance_format =>
      df <- nullish distance_format getDefaultDistanceFormat ;;
      ret (Some [("from", numeric from); ("to", numeric to);
                 ("distance_format", distance df)])
  | get_tire_pressure _ pressure_format from to =>
      pf <- nullish pressure_format getDefaultPressureFormat ;;
      ret (Some [("pressure_format", pressure pf); ("from", numeric from);
                 ("to", numeric to)])
  | get_drives _ from to distance_format temperature_format timezone tag
      exclude_tag minimum_distance limit =>
      df <- nullish distance_format getDefaultDistanceFormat ;;
      tf <- nullish temperature_format getDefaultTempFormat ;;
      ret (Some [("from", numeric from); ("to", numeric to);
                 ("distance_format", distance df);
                 ("temperature_format", temperature_unit tf);
                 ("timezone", text timezone); ("tag", text tag);
                 ("exclude_tag", text exclude_tag);
                 ("minimum_distance", numeric minimum_distance);
                 ("limit", numeric limit)])
  | get_drive_path _ from to details simplify =>
      ret (Some [("from", numeric from); ("to", numeric to);
                 ("details", boolean details); ("simplify", boolean simplify)])
  | get_charges _ from to distance_format timezone superchargers_only
      minimum_energy_added limit =>
      df <- nullish distance_format getDefaultDistanceFormat ;;
      ret (Some [("from", numeric from); ("to", numeric to);
                 ("distance_format", distance df);
                 ("timezone", text timezone);
                 ("superchargers_only", boolean superchargers_only);
                 ("minimum_energy_added", numeric minimum_energy_added);
                 ("limit", numeric limit)])
  | get_idles _ from to distance_format timezone limit =>
      df <- nullish distance_format getDefaultDistanceFormat ;;
      ret (Some [("from", numeric from); ("to", numeric to);
                 ("distance_format", distance df);
                 ("timezone", text timezone); ("limit", numeric limit)])
  end.

(** The handler of a read tool:
    [const data = await get(path, params); return { content: ... }]. *)
Definition read_tool (t : ReadTool) : M ToolResult :=
  ps <- read_params t ;;
  data <- get (read_path t) ps ;;
  ret (TextContent data).

(** *** Composite tool *)

(** A promise watched by [Promise.allSettled]: a rejection becomes a
    value. *)
Definition settled {A} (p : M A) : M (PromiseSettledResult A) :=
  fun w =>
    match p w with
    | (Normal a, w') => (Normal (fulfilled a), w')
    | (Throw e, w') => (Normal (rejected e), w')
    | (Unfinished, w') => (Unfinished, w')
    end.

Definition set_clock (t : Z) : M unit :=
  fun w => (Normal tt, {| env := env w; now := t; remote := remote w;
                          lateness := lateness w; trace := trace w |}).

(** [await Promise.allSettled([p1, p2, p3])].  The three requests are
    issued in this order at the same instant; the wait ends when the slowest
    has settled. *)
Definition Promise_allSettled3 {A} (p1 p2 p3 : M A)
  : M (PromiseSettledResult A * PromiseSettledResult A * PromiseSettledResult A) :=
  t0 <- Date_now ;;
  r1 <- settled p1 ;; t1 <- Date_now ;; set_clock t0 ;;;
  r2 <- settled p2 ;; t2 <- Date_now ;; set_clock t0 ;;;
  r3 <- settled p3 ;; t3 <- Date_now ;;
  set_clock (Z.max t1 (Z.max t2 t3)) ;;;
  ret (r1, r2, r3).

(** [r.status === "fulfilled" ? r.value : { error: r.reason?.message }] *)
Definition slot (r : PromiseSettledResult Json) : Json :=
  match r with
  | fulfilled value => value
  | rejected reason => JObject [("error", JString (message reason))]
  end.

Definition get_full_status (vin : string) : M ToolResult :=
  (* Fan out three requests in parallel *)
  rs <- Promise_allSettled3
          (get ("/" ++ vin ++ "/battery") None)
          (get ("/" ++ vin ++ "/location") None)
          (get ("/" ++ vin ++ "/state")
               (Some [("use_cache", Some (SBoolean true))])) ;;
  let '(battery, location, state) := rs in
  let result := JObject [("battery", slot battery);
                         ("location", slot location);
                         ("state", slot state)] in
  ret (TextContent result).

(** *** Tools that post without the wake gate *)

Definition set_drive_tag (vin drives tag : string) : M ToolResult :=
  data <- post ("/" ++ vin ++ "/drives/set_tag") None
            (Some [("drives", JString drives); ("tag", JString tag)]) ;;
  ret (TextContent data).

Definition set_charge_cost (vin charge_id : string) (cost : number)
  : M ToolResult :=
  data <- post ("/" ++ vin ++ "/charges/" ++ charge_id ++ "/set_cost")
            (Some [("cost", Some (SNumber cost))]) None ;;
  ret (TextContent data).

(** *** Wake *)

Definition wake_vehicle (vin : string) : M ToolResult :=
  ensureAwake vin ;;;
  ret (TextContent (JObject [("status", JString "awake")])).

(** *** Commands: the tools whose handler is one [command].  A constructor
    is a call of the tool of that name with the arguments of its own; [vin]
    and the [CommandOptionsSchema] fields are arguments of
    [command_tool]. *)
Inductive CommandTool : Type :=
| lock
| unlock
| open_front_trunk
| open_rear_trunk
| vent_windows
| close_windows
| vent_sunroof
| close_sunroof
| open_tonneau
| close_tonneau
| start_climate
| stop_climate
| set_temperatures (temperature : number)
| set_seat_heat (seat : Seat) (level : number)
| set_seat_cool (seat : Seat) (level : number)
| start_defrost
| stop_defrost
| start_steering_wheel_heater
| stop_steering_wheel_heater
| set_cabin_overheat_protection (on : bool) (fan_only : option bool)
| set_climate_keeper_mode (mode : number)
| set_bioweapon_mode (on : bool)
| start_charging
| stop_charging
| set_charge_limit (percent : number)
| set_charging_amps (amps : number)
| open_charge_port
| close_charge_port
| flash_lights
| honk
| trigger_homelink
| remote_start
| enable_sentry_mode
| disable_sentry_mode
| enable_valet_mode
| disable_valet_mode
| enable_guest_mode
| disable_guest_mode
| enable_speed_limit (limit_mph : option number)
| disable_speed_limit (pin : option string)
| schedule_software_update (offset_sec : number)
| cancel_software_update
| boombox.

(** The last segment of the handler's [`/${vin}/command/...`] path. *)
Definition command_name (t : CommandTool) : string :=
  match t with
  | lock => "lock"
  | unlock => "unlock"
  | open_front_trunk => "activate_front_trunk"
  | open_rear_trunk => "activate_rear_trunk"
  | vent_windows => "vent_windows"
  | close_windows => "close_windows"
  | vent_sunroof => "vent_sunroof"
  | close_sunroof => "close_sunroof"
  | open_tonneau => "open_tonneau"
  | close_tonneau => "close_tonneau"
  | start_climate => "start_climate"
  | stop_climate => "stop_climate"
  | set_temperatures _ => "set_temperatures"
  | set_seat_heat _ _ => "set_seat_heat"
  | set_seat_cool _ _ => "set_seat_cool"
  | start_defrost => "start_max_defrost"
  | stop_defrost => "stop_max_defrost"
  | start_steering_wheel_heater => "start_steering_wheel_heater"
  | stop_steering_wheel_heater => "stop_steering_wheel_heater"
  | set_cabin_overheat_protection _ _ => "set_cabin_overheat_protection"
  | set_climate_keeper_mode _ => "set_climate_keeper_mode"
  | set_bioweapon_mode _ => "set_bioweapon_mode"
  | start_charging => "start_charging"
  | stop_charging => "stop_charging"
  | set_charge_limit _ => "set_charge_limit"
  | set_charging_amps _ => "set_charging_amps"
  | open_charge_port => "open_charge_port"
  | close_charge_port => "close_charge_port"
  | flash_lights => "flash"
  | honk => "honk"
  | trigger_homelink => "trigger_homelink"
  | remote_start => "remote_start"
  | enable_sentry_mode => "enable_sentry"
  | disable_sentry_mode => "disable_sentry"
  | enable_valet_mode => "enable_valet"
  | disable_valet_mode => "disable_valet"
  | enable_guest_mode => "enable_guest"
  | disable_guest_mode => "disable_guest"
  | enable_speed_limit _ => "enable_speed_limit"
  | disable_speed_limit _ => "disable_speed_limit"
  | schedule_software_update _ => "schedule_software_update"
  | cancel_software_update => "cancel_software_update"
  | boombox => "boombox"
  end.

(** The tool's own entries of the [params] object literal. *)
Definition command_own_params (t : CommandTool) : Params :=
  match t with
  | set_temperatures temperature =>
      [("temperature", Some (SNumber temperature))]
  | set_seat_heat seat level =>
      [("seat", Some (SString (Seat_str seat))); ("level", Some (SNumber level))]
  | set_seat_cool seat level =>
      [("seat", Some (SString (Seat_str seat))); ("level", Some (SNumber level))]
  | set_cabin_overheat_protection on fan_only =>
      [("on", Some (SBoolean on)); ("fan_only", boolean fan_only)]
  | set_climate_keeper_mode mode =>
      [("mode", Some (SNumber mode))]
  | set_bioweapon_mode on =>
      [("on", Some (SBoolean on))]
  | set_charge_limit percent =>
      [("percent", Some (SNumber percent))]
  | set_charging_amps amps =>
      [("amps", Some (SNumber amps))]
  | enable_speed_limit limit_mph =>
      [("limit_mph", numeric limit_mph)]
  | disable_speed_limit pin =>
      [("pin", text pin)]
  | schedule_software_update offset_sec =>
      [("offset_sec", Some (SNumber offset_sec))]
  | _ => []
  end.

(** The handler of a command tool:
    [const data = await command(vin, `/${vin}/command/<name>`,
       { ...own, wait_for_completion, max_attempts }); return { content: ... }]. *)
Definition command_path (vin : string) (t : CommandTool) : string :=
  "/" ++ vin ++ "/command/" ++ command_name t.

Definition command_params (t : CommandTool)
  (wait_for_completion : option bool) (max_attempts : option number) : Params :=
  (command_own_params t ++
   [("wait_for_completion", boolean wait_for_completion);
    ("max_attempts", numeric max_attempts)])%list.

Definition command_tool (t : CommandTool) (vin : string)
  (wait_for_completion : option bool) (max_attempts : option number)
  : M ToolResult :=
  data <- command vin (command_path vin t)
            (Some (command_params t wait_for_completion max_attempts)) ;;
  ret (TextContent data).

(** * Properties *)

(** ** What one run of [tessieRequest] does *)

(** The request [tessieRequest] hands to [fetch] when the token is
    [token]. *)
Definition request_for (o : TessieRequestOptions) (token : string) : Request :=
  let m := match method o with Some m => m | None => GET end in
  let with_body := match body o with
                   | Some _ => Method_eqb m POST
                   | None => false
                   end in
  {| req_url := match params o with
                | Some ps => append_params (new_URL (BASE_URL ++ path o)) ps
                | None => new_URL (BASE_URL ++ path o)
                end;
     req_method := m;
     req_headers :=
       if with_body
       then [("Authorization", "Bearer " ++ token);
             ("Accept", "application/json");
             ("Content-Type", "application/json")]
       else [("Authorization", "Bearer " ++ token);
             ("Accept", "application/json")];
     req_body := if with_body then body o else None |}.

(** How [tessieRequest] ends once [fetch] has resolved to [r]. *)
Definition settle_response (r : Response) : Completion Json :=
  if negb (resp_ok r) then
    Throw (Error ("Tessie API error " ++ String_Z (resp_status r) ++ ": " ++
                  resp_text r))
  else if includes (match resp_content_type r with Some t => t | None => "" end)
                   "application/json"
  then match resp_json r with
       | fulfilled value => Normal value
       | rejected reason => Throw reason
       end
  else Normal (JObject [("raw", JString (resp_text r))]).

Definition settle_reply (reply : Reply) : Completion Json :=
  match result reply with
  | Rejected e => Throw e
  | Resolved r => settle_response r
  end.

Definition token_of (w : World) : string :=
  match TESSIE_API_TOKEN (env w) with Some t => t | None => "" end.

Definition has_token (w : World) : bool := truthy (TESSIE_API_TOKEN (env w)).

Definition TOKEN_REQUIRED : JsError :=
  Error ("TESSIE_API_TOKEN environment variable is required. " ++
         "Get your token at https://dash.tessie.com/settings/api").

(** The world after request [req] has been answered. *)
Definition answered (w : World) (req : Request) : World :=
  log w (EvFetch req (remote w (trace w) req))
      (Z.of_N (duration (remote w (trace w) req))).

Lemma tessieRequest_no_token (o : TessieRequestOptions) (w : World) :
  has_token w = false -> tessieRequest o w = (Throw TOKEN_REQUIRED, w).
Proof.
  unfold has_token, tessieRequest, getToken, bind, process_env.
  intros ->. reflexivity.
Qed.

Lemma tessieRequest_run (o : TessieRequestOptions) (w : World) :
  has_token w = true ->
  tessieRequest o w =
    (settle_reply (remote w (trace w) (request_for o (token_of w))),
     answered w (request_for o (token_of w))).
Proof.
  unfold has_token, tessieRequest, getToken, bind, process_env.
  intros ->. cbn [negb].
  unfold ret at 1.
  change (match TESSIE_API_TOKEN (env w) with Some t => t | None => "" end)
    with (token_of w).
  unfold fetch, answered, settle_reply, settle_response, throw, ret,
    response_json, request_for.
  destruct (body o) as [b|], (method o) as [[|]|]; cbn [Method_eqb app];
    (destruct (result _) as [e|r]; [reflexivity|]);
    (destruct (negb (resp_ok r)); [reflexivity|]);
    (destruct (includes _ _); [|reflexivity]);
    destruct (resp_json r); reflexivity.
Qed.

Lemma settle_reply_finished (reply : Reply) : settle_reply reply <> Unfinished.
Proof.
  unfold settle_reply, settle_response.
  destruct (result reply) as [e|r]; [discriminate|].
  destruct (negb (resp_ok r)); [discriminate|].
  destruct (includes _ _); [|discriminate].
  destruct (resp_json r); discriminate.
Qed.

(** Answering a request changes the clock and the log and nothing else. *)
Lemma answered_trace w req :
  trace (answered w req) =
  (trace w ++ [EvFetch req (remote w (trace w) req)])%list.
Proof. reflexivity. Qed.

Lemma answered_now w req :
  now (answered w req) = now w + Z.of_N (duration (remote w (trace w) req)).
Proof. reflexivity. Qed.

(** ** Reading the log *)

Definition is_fetch (m : Method) (url : string) (e : Event) : bool :=
  match e with
  | EvFetch req _ =>
      Method_eqb (req_method req) m && (href (req_url req) =? url)%string
  | EvTimeout _ => false
  end.

(** A wake-status check of [vin]: [GET /{vin}/status]. *)
Definition is_status_check (vin : string) : Event -> bool :=
  is_fetch GET (BASE_URL ++ "/" ++ vin ++ "/status").

(** The wake command for [vin]: [POST /{vin}/wake]. *)
Definition is_wake_command (vin : string) : Event -> bool :=
  is_fetch POST (BASE_URL ++ "/" ++ vin ++ "/wake").

Definition is_post (e : Event) : bool :=
  match e with
  | EvFetch req _ => Method_eqb (req_method req) POST
  | EvTimeout _ => false
  end.

(** How the helper that sent the request of event [e] ended. *)
Definition event_outcome (e : Event) : Completion Json :=
  match e with
  | EvFetch _ reply => settle_reply reply
  | EvTimeout _ => Unfinished
  end.

(** The logged exchange is one in which the service said ["awake"]. *)
Definition reports_awake (e : Event) : bool :=
  match event_outcome e with
  | Normal data => status_is_awake data
  | _ => false
  end.

(** The poll phase: every status check comes right after one wait of
    [WAKE_POLL_INTERVAL_MS]. *)
Fixpoint is_poll_trace (vin : string) (evs : list Event) : bool :=
  match evs with
  | [] => true
  | EvTimeout ms :: check :: rest =>
      (ms =? WAKE_POLL_INTERVAL_MS) && is_status_check vin check &&
      is_poll_trace vin rest
  | _ => false
  end.

(** One run of [ensureAwake]: nothing, or a status check, then possibly the
    wake command and the poll phase. *)
Definition is_wake_trace (vin : string) (evs : list Event) : bool :=
  match evs with
  | [] => true
  | check :: rest =>
      is_status_check vin check &&
      match rest with
      | [] => true
      | wake :: polls => is_wake_command vin wake && is_poll_trace vin polls
      end
  end.

Definition status_options (vin : string) : TessieRequestOptions :=
  {| method := Some GET; path := "/" ++ vin ++ "/status"; params := None;
     body := None |}.

Definition wake_options (vin : string) : TessieRequestOptions :=
  {| method := Some POST; path := "/" ++ vin ++ "/wake"; params := None;
     body := None |}.

Lemma status_request_is_check vin token reply :
  is_status_check vin (EvFetch (request_for (status_options vin) token) reply)
  = true.
Proof.
  unfold is_status_check, is_fetch, request_for, status_options.
  cbn [method params body path req_method req_url href new_URL Method_eqb andb].
  apply String.eqb_refl.
Qed.

Lemma wake_request_is_command vin token reply :
  is_wake_command vin (EvFetch (request_for (wake_options vin) token) reply)
  = true.
Proof.
  unfold is_wake_command, is_fetch, request_for, wake_options.
  cbn [method params body path req_method req_url href new_URL Method_eqb andb].
  apply String.eqb_refl.
Qed.

(** ** One status check *)

(** The request of a status check made in world [w], and the world after
    it. *)
Definition status_check (vin : string) (w : World) : Request :=
  request_for (status_options vin) (token_of w).

Definition checked (vin : string) (w : World) : World :=
  answered w (status_check vin w).

Definition check_outcome (reply : Reply) : Completion bool :=
  match settle_reply reply with
  | Normal data => Normal (status_is_awake data)
  | Throw e => Throw e
  | Unfinished => Unfinished
  end.

Lemma isVehicleAwake_no_token vin w :
  has_token w = false -> isVehicleAwake vin w = (Throw TOKEN_REQUIRED, w).
Proof.
  intros H. unfold isVehicleAwake, get, bind.
  rewrite tessieRequest_no_token by exact H. reflexivity.
Qed.

Lemma isVehicleAwake_run vin w :
  has_token w = true ->
  isVehicleAwake vin w =
    (check_outcome (remote w (trace w) (status_check vin w)), checked vin w).
Proof.
  intros H. unfold isVehicleAwake, get, bind.
  rewrite tessieRequest_run by exact H.
  fold (status_options vin). fold (status_check vin w). fold (checked vin w).
  unfold check_outcome.
  destruct (settle_reply _); reflexivity.
Qed.

Lemma check_outcome_finished reply : check_outcome reply <> Unfinished.
Proof.
  unfold check_outcome.
  pose proof (settle_reply_finished reply) as H.
  destruct (settle_reply reply); congruence.
Qed.

Lemma checked_last_event vin w :
  trace (checked vin w) =
  (trace w ++ [EvFetch (status_check vin w)
                       (remote w (trace w) (status_check vin w))])%list.
Proof. reflexivity. Qed.

Lemma check_outcome_awake reply req :
  check_outcome reply = Normal true -> reports_awake (EvFetch req reply) = true.
Proof.
  unfold check_outcome, reports_awake, event_outcome.
  destruct (settle_reply reply); congruence.
Qed.

Lemma check_outcome_asleep reply req :
  check_outcome reply = Normal false ->
  reports_awake (EvFetch req reply) = false.
Proof.
  unfold check_outcome, reports_awake, event_outcome.
  destruct (settle_reply reply); congruence.
Qed.

Lemma check_outcome_throw reply req e :
  check_outcome reply = Throw e -> event_outcome (EvFetch req reply) = Throw e.
Proof.
  unfold check_outcome, event_outcome.
  destruct (settle_reply reply); congruence.
Qed.

(** ** The poll loop *)

(** The world after one wait of the poll interval. *)
Definition waited (w : World) : World :=
  log w (EvTimeout WAKE_POLL_INTERVAL_MS)
      (WAKE_POLL_INTERVAL_MS +
       Z.of_N (lateness w (trace w) WAKE_POLL_INTERVAL_MS)).

Lemma wake_poll_step bound vin deadline w :
  wake_poll (S bound) vin deadline w =
    if now w <? deadline then
      match isVehicleAwake vin (waited w) with
      | (Normal true, w') => (Normal true, w')
      | (Normal false, w') => wake_poll bound vin deadline w'
      | (Throw e, w') => (Throw e, w')
      | (Unfinished, w') => (Unfinished, w')
      end
    else (Normal false, w).
Proof.
  cbn [wake_poll]. unfold bind at 1. unfold Date_now at 1.
  destruct (now w <? deadline); [|reflexivity].
  unfold bind at 1. unfold sleep at 1. fold (waited w).
  unfold bind at 1.
  destruct (isVehicleAwake vin (waited w)) as [[[|]|e|] w']; reflexivity.
Qed.

(** What a run of the loop leaves behind, for each way it can end. *)
Definition poll_post (vin : string) (deadline : Z) (bound : nat) (w : World)
  (r : Completion bool * World) : Prop :=
  exists polls,
    env (snd r) = env w /\ remote (snd r) = remote w /\
    trace (snd r) = (trace w ++ polls)%list /\
    is_poll_trace vin polls = true /\
    match fst r with
    | Normal true =>
        exists pre check, polls = (pre ++ [check])%list /\
                          is_status_check vin check = true /\
                          reports_awake check = true
    | Normal false =>
        deadline <= now (snd r) /\
        (now w < deadline -> polls <> []) /\
        Forall (fun e => reports_awake e = false) polls /\
        (length polls <= 2 * (bound - 1))%nat
    | Throw e =>
        exists pre check, polls = (pre ++ [check])%list /\
                          is_status_check vin check = true /\
                          event_outcome check = Throw e
    | Unfinished =>
        WAKE_POLL_INTERVAL_MS * (Z.of_nat bound - 1) < deadline - now w
        \/ bound = O
    end.

Lemma wake_poll_post vin deadline bound :
  forall w, has_token w = true ->
    poll_post vin deadline bound w (wake_poll bound vin deadline w).
Proof.
  induction bound as [|bound IH]; intros w Htok.
  - exists []. cbn. rewrite app_nil_r. repeat split; auto.
  - rewrite wake_poll_step.
    destruct (now w <? deadline) eqn:Hlt.
    + apply Z.ltb_lt in Hlt.
      assert (Htok' : has_token (waited w) = true) by exact Htok.
      rewrite (isVehicleAwake_run vin (waited w) Htok').
      set (w1 := waited w) in *.
      set (reply := remote w1 (trace w1) (status_check vin w1)).
      set (ev := EvFetch (status_check vin w1) reply).
      assert (Hshape : forall rest, is_poll_trace vin rest = true ->
                is_poll_trace vin
                  (EvTimeout WAKE_POLL_INTERVAL_MS :: ev :: rest) = true).
      { intros rest Hr. cbn [is_poll_trace]. rewrite Z.eqb_refl.
        unfold ev, status_check. rewrite status_request_is_check.
        exact Hr. }
      assert (Htr : trace (checked vin w1) =
                    (trace w ++ [EvTimeout WAKE_POLL_INTERVAL_MS; ev])%list).
      { rewrite checked_last_event. unfold w1, waited, log. cbn [trace].
        rewrite <- app_assoc. reflexivity. }
      destruct (check_outcome reply) as [[|]|e|] eqn:Hout.
      * exists [EvTimeout WAKE_POLL_INTERVAL_MS; ev]. cbn [fst snd].
        repeat split; auto.
        exists [EvTimeout WAKE_POLL_INTERVAL_MS], ev. split; [reflexivity|].
        split; [apply status_request_is_check|].
        apply check_outcome_awake. exact Hout.
      * assert (Htok2 : has_token (checked vin w1) = true) by exact Htok.
        destruct (IH (checked vin w1) Htok2)
          as (polls & Henv & Hrem & Htrace & Hpoll & Hcase).
        exists (EvTimeout WAKE_POLL_INTERVAL_MS :: ev :: polls).
        repeat split.
        -- rewrite Henv. reflexivity.
        -- rewrite Hrem. reflexivity.
        -- rewrite Htrace, Htr, <- app_assoc. reflexivity.
        -- apply Hshape. exact Hpoll.
        -- assert (Hnow : now (checked vin w1) >= now w + WAKE_POLL_INTERVAL_MS).
           { unfold checked. rewrite answered_now. unfold w1, waited, log.
             cbn [now]. lia. }
           destruct (fst (wake_poll bound vin deadline (checked vin w1)))
             as [[|]|e|] eqn:Hrec.
           ++ destruct Hcase as (pre & chk & -> & Haw).
              exists (EvTimeout WAKE_POLL_INTERVAL_MS :: ev :: pre), chk.
              split; [reflexivity|exact Haw].
           ++ destruct Hcase as (Hd & Hne & Hall & Hlen).
              repeat split.
              ** exact Hd.
              ** discriminate.
              ** constructor; [reflexivity|].
                 constructor; [|exact Hall].
                 apply check_outcome_asleep. exact Hout.
              ** destruct bound as [|bound'].
                 { cbn in Hrec. discriminate. }
                 cbn [length]. lia.
           ++ destruct Hcase as (pre & chk & -> & Haw).
              exists (EvTimeout WAKE_POLL_INTERVAL_MS :: ev :: pre), chk.
              split; [reflexivity|exact Haw].
           ++ destruct Hcase as [Hc| ->]; left; unfold WAKE_POLL_INTERVAL_MS in *; lia.
      * exists [EvTimeout WAKE_POLL_INTERVAL_MS; ev]. cbn [fst snd].
        repeat split; auto.
        exists [EvTimeout WAKE_POLL_INTERVAL_MS], ev. split; [reflexivity|].
        split; [apply status_request_is_check|].
        apply check_outcome_throw. exact Hout.
      * exfalso. exact (check_outcome_finished _ Hout).
    + apply Z.ltb_ge in Hlt.
      exists []. cbn [fst snd]. rewrite app_nil_r.
      repeat split; auto; try lia.
      cbn. lia.
Qed.

(** ** One run of [ensureAwake] *)

Definition WAKE_TIMED_OUT (vin : string) : JsError :=
  Error ("Vehicle " ++ vin ++ " did not wake within 90s. " ++
         "Try calling wake_vehicle manually and retrying.").

(** The request of the wake command, and the world in which polling
    begins: the first status check and the wake command have been
    answered. *)
Definition wake_command (vin : string) (w : World) : Request :=
  request_for (wake_options vin) (token_of w).

Definition polling_began (vin : string) (w : World) : World :=
  answered (checked vin w) (wake_command vin w).

Lemma ensureAwake_no_token vin w :
  has_token w = false -> ensureAwake vin w = (Throw TOKEN_REQUIRED, w).
Proof.
  intros H. unfold ensureAwake, bind.
  rewrite isVehicleAwake_no_token by exact H. reflexivity.
Qed.

Lemma ensureAwake_run vin w :
  has_token w = true ->
  ensureAwake vin w =
    match check_outcome (remote w (trace w) (status_check vin w)) with
    | Normal true => (Normal tt, checked vin w)
    | Normal false =>
        match settle_reply (remote (checked vin w) (trace (checked vin w))
                                   (wake_command vin w)) with
        | Normal _ =>
            match wake_poll WAKE_POLL_BOUND vin
                    (now (polling_began vin w) + WAKE_TIMEOUT_MS)
                    (polling_began vin w) with
            | (Normal true, w') => (Normal tt, w')
            | (Normal false, w') => (Throw (WAKE_TIMED_OUT vin), w')
            | (Throw e, w') => (Throw e, w')
            | (Unfinished, w') => (Unfinished, w')
            end
        | Throw e => (Throw e, polling_began vin w)
        | Unfinished => (Unfinished, polling_began vin w)
        end
    | Throw e => (Throw e, checked vin w)
    | Unfinished => (Unfinished, checked vin w)
    end.
Proof.
  intros H. unfold ensureAwake. unfold bind at 1.
  rewrite isVehicleAwake_run by exact H.
  destruct (check_outcome _) as [[|]|e|]; try reflexivity.
  unfold bind at 1. unfold post.
  assert (H1 : has_token (checked vin w) = true) by exact H.
  rewrite tessieRequest_run by exact H1.
  fold (wake_options vin).
  change (token_of (checked vin w)) with (token_of w).
  fold (wake_command vin w). fold (polling_began vin w).
  destruct (settle_reply _) as [data|e|]; try reflexivity.
  unfold bind at 1. unfold Date_now at 1.
  unfold bind at 1.
  destruct (wake_poll _ _ _ _) as [[[|]|e|] w']; reflexivity.
Qed.

(** What a run of [ensureAwake] leaves behind. *)
Definition wake_post (vin : string) (w : World) (r : Completion unit * World)
  : Prop :=
  exists evs,
    env (snd r) = env w /\ remote (snd r) = remote w /\
    trace (snd r) = (trace w ++ evs)%list /\
    is_wake_trace vin evs = true /\
    match fst r with
    | Normal _ =>
        exists pre check, evs = (pre ++ [check])%list /\
                          is_status_check vin check = true /\
                          reports_awake check = true
    | Throw _ => True
    | Unfinished => False
    end.

Lemma WAKE_POLL_BOUND_enough :
  WAKE_POLL_INTERVAL_MS * (Z.of_nat WAKE_POLL_BOUND - 1) = WAKE_TIMEOUT_MS.
Proof. reflexivity. Qed.

Lemma ensureAwake_post vin w : wake_post vin w (ensureAwake vin w).
Proof.
  destruct (has_token w) eqn:Htok.
  2:{ rewrite ensureAwake_no_token by exact Htok.
      exists []. cbn [fst snd]. rewrite app_nil_r. repeat split. }
  rewrite ensureAwake_run by exact Htok.
  set (reply := remote w (trace w) (status_check vin w)).
  set (ev := EvFetch (status_check vin w) reply).
  assert (Hev : is_status_check vin ev = true)
    by apply status_request_is_check.
  assert (Hone : is_wake_trace vin [ev] = true).
  { cbn [is_wake_trace]. rewrite Hev. reflexivity. }
  destruct (check_outcome reply) as [[|]|e|] eqn:Hout.
  - exists [ev]. cbn [fst snd]. repeat split; auto.
    exists [], ev. repeat split; auto.
    apply check_outcome_awake. exact Hout.
  - set (wreply := remote (checked vin w) (trace (checked vin w))
                          (wake_command vin w)).
    set (wev := EvFetch (wake_command vin w) wreply).
    assert (Hwev : is_wake_command vin wev = true)
      by apply wake_request_is_command.
    assert (Htr : trace (polling_began vin w) = (trace w ++ [ev; wev])%list).
    { unfold polling_began. rewrite answered_trace, checked_last_event.
      rewrite <- app_assoc. reflexivity. }
    assert (Htwo : forall polls, is_poll_trace vin polls = true ->
                     is_wake_trace vin (ev :: wev :: polls) = true).
    { intros polls Hp. cbn [is_wake_trace]. rewrite Hev, Hwev, Hp.
      reflexivity. }
    destruct (settle_reply wreply) as [data|e|] eqn:Hw.
    + assert (Htok2 : has_token (polling_began vin w) = true) by exact Htok.
      pose proof (wake_poll_post vin
                    (now (polling_began vin w) + WAKE_TIMEOUT_MS)
                    WAKE_POLL_BOUND (polling_began vin w) Htok2)
        as (polls & Henv & Hrem & Htrace & Hpoll & Hcase).
      destruct (wake_poll _ _ _ _) as [out w'].
      cbn [fst snd] in *.
      assert (Hall : trace w' = (trace w ++ ev :: wev :: polls)%list).
      { rewrite Htrace, Htr, <- app_assoc. reflexivity. }
      destruct out as [[|]|e|]; exists (ev :: wev :: polls); cbn [fst snd];
        repeat split; auto.
      * destruct Hcase as (pre & chk & -> & Hchk & Haw).
        exists (ev :: wev :: pre), chk. repeat split; auto.
      * destruct Hcase as [Hc|Hc].
        -- rewrite WAKE_POLL_BOUND_enough in Hc. lia.
        -- discriminate.
    + exists [ev; wev]. cbn [fst snd]. repeat split; auto.
    + exfalso. exact (settle_reply_finished _ Hw).
  - exists [ev]. cbn [fst snd]. repeat split; auto.
  - exfalso. exact (check_outcome_finished _ Hout).
Qed.

(** The poll loop is never cut off by its bound: every run of
    [ensureAwake] returns or throws. *)
Lemma ensureAwake_finishes vin w : fst (ensureAwake vin w) <> Unfinished.
Proof.
  destruct (ensureAwake_post vin w) as (evs & _ & _ & _ & _ & H).
  intros E. rewrite E in H. exact H.
Qed.

(** ** The wake gate of [command] *)

(** The events logged before the first [POST]; [None] when no [POST] was
    sent. *)
Fixpoint before_first_post (evs : list Event) : option (list Event) :=
  match evs with
  | [] => None
  | e :: rest =>
      if is_post e then Some []
      else option_map (cons e) (before_first_post rest)
  end.

Lemma is_fetch_GET_not_post url e : is_fetch GET url e = true -> is_post e = false.
Proof.
  destruct e as [req reply|ms]; [|reflexivity].
  unfold is_fetch, is_post. destruct (req_method req); [reflexivity|].
  discriminate.
Qed.

Lemma is_fetch_POST_is_post url e : is_fetch POST url e = true -> is_post e = true.
Proof.
  destruct e as [req reply|ms]; [|discriminate].
  unfold is_fetch, is_post. destruct (req_method req); [discriminate|].
  reflexivity.
Qed.

Lemma first_post_of_wake_trace vin evs tail :
  is_wake_trace vin evs = true ->
  tail = [] \/ (exists cmd, tail = [cmd] /\ is_post cmd = true /\ evs <> []) ->
  forall pre, before_first_post (evs ++ tail) = Some pre ->
    exists check, pre = [check] /\ is_status_check vin check = true.
Proof.
  intros Hshape Htail pre.
  destruct evs as [|check [|wake polls]]; cbn [is_wake_trace] in Hshape.
  - destruct Htail as [->|(cmd & _ & _ & Hne)]; [discriminate|congruence].
  - rewrite andb_true_r in Hshape.
    pose proof (is_fetch_GET_not_post _ _ Hshape) as Hnp.
    cbn [app before_first_post]. rewrite Hnp.
    destruct Htail as [->|(cmd & -> & Hcmd & _)]; cbn [before_first_post].
    + discriminate.
    + rewrite Hcmd. cbn [option_map]. intros [= <-]. eauto.
  - apply andb_prop in Hshape as [Hc Hrest].
    apply andb_prop in Hrest as [Hw _].
    pose proof (is_fetch_GET_not_post _ _ Hc) as Hnp.
    pose proof (is_fetch_POST_is_post _ _ Hw) as Hp.
    cbn [app before_first_post]. rewrite Hnp, Hp. cbn [option_map].
    intros [= <-]. eauto.
Qed.

Lemma command_run vin commandPath ps w :
  command vin commandPath ps w =
    match ensureAwake vin w with
    | (Normal _, w1) => post commandPath ps None w1
    | (Throw e, w1) => (Throw e, w1)
    | (Unfinished, w1) => (Unfinished, w1)
    end.
Proof. reflexivity. Qed.

Lemma command_tool_run t vin wfc ma w :
  command_tool t vin wfc ma w =
    match command vin (command_path vin t) (Some (command_params t wfc ma)) w with
    | (Normal data, w') => (Normal (TextContent data), w')
    | (Throw e, w') => (Throw e, w')
    | (Unfinished, w') => (Unfinished, w')
    end.
Proof.
  unfold command_tool, bind.
  destruct (command _ _ _ _) as [[data|e|] w']; reflexivity.
Qed.

Definition command_options (commandPath : string) (ps : option Params)
  : TessieRequestOptions :=
  {| method := Some POST; path := commandPath; params := ps; body := None |}.

Lemma command_request_is_post commandPath ps token reply :
  is_fetch POST (BASE_URL ++ commandPath)
    (EvFetch (request_for (command_options commandPath ps) token) reply) = true.
Proof.
  unfold is_fetch, request_for, command_options.
  cbn [method params body path req_method req_url Method_eqb andb].
  destruct ps as [l|]; [|apply String.eqb_refl].
  unfold append_params.
  assert (H : forall l u, href (fold_left
     (fun u0 entry => match snd entry with
                      | Some value => searchParams_set u0 (fst entry) (ToString value)
                      | None => u0
                      end) l u) = href u).
  { clear. induction l as [|[k [v|]] l IH]; intros u; cbn [fold_left snd fst];
      [reflexivity| |]; rewrite IH; reflexivity. }
  rewrite H. apply String.eqb_refl.
Qed.

(** C1.  Every mutating tool is one call of [command], and the log of a
    run of such a tool is the log of one run of [ensureAwake], followed by
    the tool's command when that run returned.  So: exactly one wake-status
    check of the vehicle is logged before the first POST that is sent (be
    it the wake command or the tool's own command); and the tool's command
    is posted only when the gate returned, directly after a status check in
    which the service reported the vehicle awake, be it the first check or
    one of the poll loop.  When [ensureAwake] throws, the tool fails with
    that error and posts no command. *)
Theorem command_tool_wake_gate (t : CommandTool) (vin : string)
  (wait_for_completion : option bool) (max_attempts : option number)
  (w : World) :
  exists evs,
    trace (snd (command_tool t vin wait_for_completion max_attempts w)) =
      (trace w ++ evs)%list /\
    (forall pre, before_first_post evs = Some pre ->
       exists check, pre = [check] /\ is_status_check vin check = true) /\
    match ensureAwake vin w with
    | (Normal _, w1) =>
        exists pre check cmd,
          evs = (pre ++ [check; cmd])%list /\
          trace w1 = (trace w ++ pre ++ [check])%list /\
          is_status_check vin check = true /\
          reports_awake check = true /\
          is_fetch POST (BASE_URL ++ command_path vin t) cmd = true
    | (Throw e, w1) =>
        command_tool t vin wait_for_completion max_attempts w = (Throw e, w1)
    | (Unfinished, _) => False
    end.
Proof.
  rewrite command_tool_run, command_run.
  destruct (has_token w) eqn:Htok0.
  2:{ rewrite (ensureAwake_no_token vin w Htok0). exists [].
      cbn [fst snd]. rewrite app_nil_r.
      split; [reflexivity|]. split; [discriminate|reflexivity]. }
  destruct (ensureAwake_post vin w)
    as (evs & Henv & Hrem & Htrace & Hshape & Hcase).
  destruct (ensureAwake vin w) as [[[]|e|] w1]; cbn [fst snd] in *.
  - destruct Hcase as (pre & check & -> & Hchk & Haw).
    assert (Htok : has_token w1 = true).
    { unfold has_token. rewrite Henv. exact Htok0. }
    unfold post. rewrite tessieRequest_run by exact Htok.
    fold (command_options (command_path vin t)
            (Some (command_params t wait_for_completion max_attempts))).
    set (req := request_for _ _).
    set (cmd := EvFetch req (remote w1 (trace w1) req)).
    assert (Hcmd : is_fetch POST (BASE_URL ++ command_path vin t) cmd = true)
      by apply command_request_is_post.
    assert (Hall : trace (answered w1 req) =
                   (trace w ++ (pre ++ [check]) ++ [cmd])%list).
    { rewrite answered_trace. fold cmd. rewrite Htrace, <- app_assoc.
      reflexivity. }
    exists ((pre ++ [check]) ++ [cmd])%list. split; [|split].
    + destruct (settle_reply _); exact Hall.
    + intros pre0 Hp.
      eapply first_post_of_wake_trace; [exact Hshape| |exact Hp].
      right. exists cmd. split; [reflexivity|]. split.
      * eapply is_fetch_POST_is_post; exact Hcmd.
      * destruct pre; discriminate.
    + exists pre, check, cmd. rewrite <- app_assoc. repeat split; auto.
  - exists evs. split; [|split].
    + exact Htrace.
    + intros pre0 Hp. rewrite <- (app_nil_r evs) in Hp.
      eapply first_post_of_wake_trace; eauto.
    + reflexivity.
  - contradiction.
Qed.

(** ** The fast path *)

(** C2.  When the first wake-status check of a run of [ensureAwake] reports
    the vehicle awake, the run returns at once, in the world that check
    left: the log has grown by that one status check and nothing else (no
    wake command, no wait, no second check), and the clock has advanced by
    the duration of that one exchange only. *)
Theorem ensureAwake_fast_path (vin : string) (w w1 : World) :
  isVehicleAwake vin w = (Normal true, w1) ->
  ensureAwake vin w = (Normal tt, w1) /\
  exists check reply,
    check = EvFetch (status_check vin w) reply /\
    trace w1 = (trace w ++ [check])%list /\
    is_status_check vin check = true /\
    reports_awake check = true /\
    length (filter (is_status_check vin) [check]) = 1%nat /\
    is_post check = false /\
    now w1 = now w + Z.of_N (duration reply).
Proof.
  intros Hfirst. split.
  - unfold ensureAwake, bind. rewrite Hfirst. reflexivity.
  - destruct (has_token w) eqn:Htok.
    2:{ rewrite isVehicleAwake_no_token in Hfirst by exact Htok.
        discriminate. }
    rewrite isVehicleAwake_run in Hfirst by exact Htok.
    injection Hfirst as Hout <-.
    set (reply := remote w (trace w) (status_check vin w)) in *.
    assert (Hchk : is_status_check vin (EvFetch (status_check vin w) reply) = true)
      by apply status_request_is_check.
    exists (EvFetch (status_check vin w) reply), reply.
    split; [reflexivity|]. split; [reflexivity|]. split; [exact Hchk|].
    split; [apply check_outcome_awake; exact Hout|].
    split; [cbn [filter]; rewrite Hchk; reflexivity|].
    split; [eapply is_fetch_GET_not_post; exact Hchk|reflexivity].
Qed.

(** ** The timeout *)

Lemma poll_trace_no_post vin :
  forall polls, is_poll_trace vin polls = true -> existsb is_post polls = false.
Proof.
  assert (H : forall polls,
             (is_poll_trace vin polls = true -> existsb is_post polls = false) /\
             (forall e, is_poll_trace vin (e :: polls) = true ->
                        existsb is_post (e :: polls) = false)).
  { induction polls as [|e' polls [IH1 IH2]].
    - split; [reflexivity|]. intros [req reply|ms]; discriminate.
    - split; [apply IH2|].
      intros [req reply|ms]; [discriminate|]. cbn [is_poll_trace].
      intros H. apply andb_prop in H as [H Hrest].
      apply andb_prop in H as [_ Hc].
      cbn [existsb is_post orb].
      rewrite (is_fetch_GET_not_post _ _ Hc). cbn [orb].
      apply IH1. exact Hrest. }
  intros polls. apply H.
Qed.

(** While every status check says "not awake", the loop can only be left
    through its condition, and then soon after the deadline: the last pass
    began before it and took one wait, as late as the timer was, and one
    status check. *)
Lemma wake_poll_asleep vin deadline T L bound :
  forall w,
    has_token w = true ->
    (forall tr, check_outcome (remote w tr (status_check vin w)) = Normal false) ->
    (forall tr ms, Z.of_N (lateness w tr ms) <= T) ->
    (forall tr, Z.of_N (duration (remote w tr (status_check vin w))) <= L) ->
    match wake_poll bound vin deadline w with
    | (Normal false, w') =>
        (deadline <= now w -> w' = w) /\
        (now w < deadline ->
         now w' < deadline + WAKE_POLL_INTERVAL_MS + T + L)
    | (Unfinished, _) => True
    | _ => False
    end.
Proof.
  induction bound as [|bound IH]; intros w Htok Hcheck Hlate Hdur.
  - exact I.
  - rewrite wake_poll_step.
    destruct (now w <? deadline) eqn:Hlt.
    + apply Z.ltb_lt in Hlt.
      assert (Htok1 : has_token (waited w) = true) by exact Htok.
      rewrite (isVehicleAwake_run vin (waited w) Htok1).
      change (remote (waited w)) with (remote w).
      change (status_check vin (waited w)) with (status_check vin w).
      rewrite Hcheck.
      specialize (IH (checked vin (waited w)) Htok Hcheck Hlate Hdur).
      assert (Hnow : now (checked vin (waited w)) =
                     now w + (WAKE_POLL_INTERVAL_MS +
                              Z.of_N (lateness w (trace w)
                                        WAKE_POLL_INTERVAL_MS)) +
                     Z.of_N (duration (remote w (trace (waited w))
                                               (status_check vin w))))
        by reflexivity.
      pose proof (Hdur (trace (waited w))) as Hd.
      pose proof (Hlate (trace w) WAKE_POLL_INTERVAL_MS) as Hl.
      destruct (wake_poll bound vin deadline (checked vin (waited w)))
        as [[[|]|e|] w']; try exact IH.
      destruct IH as [IHa IHb]. split; [lia|]. intros _.
      destruct (Z.le_gt_cases deadline (now (checked vin (waited w))))
        as [Hge|Hlt2].
      * rewrite (IHa Hge). lia.
      * apply IHb. lia.
    + apply Z.ltb_ge in Hlt. split; [reflexivity|lia].
Qed.

(** The premise of the timeout property: a token is configured, every
    wake-status check of [vin] is answered and says "not awake", and the
    wake command is accepted. *)
Definition never_awake (vin : string) (w : World) : Prop :=
  has_token w = true /\
  (forall tr, check_outcome (remote w tr (status_check vin w)) = Normal false) /\
  (forall tr, exists data,
      settle_reply (remote w tr (wake_command vin w)) = Normal data).

(** The timeout property with the bound of one poll interval past the
    ceiling, as a proposition about all worlds. *)
Definition times_out_within_one_interval : Prop :=
  forall vin w,
    never_awake vin w ->
    exists w',
      ensureAwake vin w = (Throw (WAKE_TIMED_OUT vin), w') /\
      now (polling_began vin w) + WAKE_TIMEOUT_MS <= now w' /\
      now w' <= now (polling_began vin w) + WAKE_TIMEOUT_MS +
                WAKE_POLL_INTERVAL_MS.

(** C3 (amended).  When no wake-status check ever reports the vehicle awake
    (and the wake command is accepted), [ensureAwake] logs the first check,
    then the wake command exactly once, then only pairs of one wait asked
    for 3000 ms and one status check, at least one and at most thirty of
    them, and throws the error that names the vehicle, the 90 s ceiling and
    [wake_vehicle].  It throws no earlier than [WAKE_TIMEOUT_MS] after
    polling began, and earlier than [WAKE_TIMEOUT_MS] plus one poll interval
    plus [T] plus [L], where [T] bounds how late a timer fires and [L] the
    duration of a status check. *)
Theorem ensureAwake_times_out (vin : string) (w : World) (T L : Z) :
  never_awake vin w ->
  (forall tr ms, Z.of_N (lateness w tr ms) <= T) ->
  (forall tr, Z.of_N (duration (remote w tr (status_check vin w))) <= L) ->
  exists check wake polls w',
    ensureAwake vin w =
      (Throw (Error ("Vehicle " ++ vin ++ " did not wake within 90s. " ++
                     "Try calling wake_vehicle manually and retrying.")), w') /\
    trace (polling_began vin w) = (trace w ++ [check; wake])%list /\
    trace w' = (trace (polling_began vin w) ++ polls)%list /\
    is_status_check vin check = true /\
    is_wake_command vin wake = true /\
    is_poll_trace vin polls = true /\
    existsb is_post polls = false /\
    (2 <= length polls <= 60)%nat /\
    now (polling_began vin w) + WAKE_TIMEOUT_MS <= now w' /\
    now w' < now (polling_began vin w) + WAKE_TIMEOUT_MS +
             WAKE_POLL_INTERVAL_MS + T + L.
Proof.
  intros (Htok & Hcheck & Hwake) Hlate Hdur.
  rewrite ensureAwake_run by exact Htok.
  rewrite Hcheck.
  destruct (Hwake (trace (checked vin w))) as [data Hdata].
  change (remote (checked vin w)) with (remote w).
  rewrite Hdata.
  set (w0 := polling_began vin w).
  assert (Htok0 : has_token w0 = true) by exact Htok.
  pose proof (wake_poll_post vin (now w0 + WAKE_TIMEOUT_MS) WAKE_POLL_BOUND
                w0 Htok0) as (polls & _ & _ & Htrace & Hpoll & Hcase).
  pose proof (wake_poll_asleep vin (now w0 + WAKE_TIMEOUT_MS) T L
                WAKE_POLL_BOUND w0 Htok0 Hcheck Hlate Hdur) as Hasleep.
  destruct (wake_poll WAKE_POLL_BOUND vin (now w0 + WAKE_TIMEOUT_MS) w0)
    as [[[|]|e|] w']; cbn [fst snd] in *; try contradiction.
  - destruct Hcase as (Hlow & Hne & _ & Hlen).
    destruct Hasleep as [_ Hup].
    assert (Hstart : now w0 < now w0 + WAKE_TIMEOUT_MS)
      by (unfold WAKE_TIMEOUT_MS; lia).
    exists (EvFetch (status_check vin w)
                    (remote w (trace w) (status_check vin w))),
           (EvFetch (wake_command vin w)
                    (remote w (trace (checked vin w)) (wake_command vin w))),
           polls, w'.
    split; [reflexivity|].
    split.
    { unfold w0, polling_began. rewrite answered_trace, checked_last_event.
      rewrite <- app_assoc. reflexivity. }
    split; [exact Htrace|].
    split; [apply status_request_is_check|].
    split; [apply wake_request_is_command|].
    split; [exact Hpoll|].
    split; [apply (poll_trace_no_post vin); exact Hpoll|].
    split.
    { split.
      - specialize (Hne Hstart).
        destruct polls as [|[req reply|ms] [|e2 rest]];
          try congruence; try discriminate.
        cbn [length]. lia.
      - change (2 * (WAKE_POLL_BOUND - 1))%nat with 60%nat in Hlen.
        exact Hlen. }
    split; [exact Hlow|].
    apply Hup. exact Hstart.
  - destruct Hcase as [Hc|Hc]; [|discriminate].
    rewrite WAKE_POLL_BOUND_enough in Hc. lia.
Qed.

(** ** The transport client *)

(** C8.  Without a bearer credential in the environment
    ([TESSIE_API_TOKEN] undefined or empty), [tessieRequest] throws the
    configuration error and leaves the world as it found it: nothing is
    logged, so no request has gone out. *)
Theorem tessieRequest_requires_token (o : TessieRequestOptions) (w : World) :
  truthy (TESSIE_API_TOKEN (env w)) = false ->
  tessieRequest o w =
    (Throw (Error ("TESSIE_API_TOKEN environment variable is required. " ++
                   "Get your token at https://dash.tessie.com/settings/api")),
     w) /\
  trace (snd (tessieRequest o w)) = trace w.
Proof.
  intros H.
  rewrite (tessieRequest_no_token o w H). split; reflexivity.
Qed.

(** C7.  When the service answers a request with a status outside 200..299,
    [tessieRequest] throws an error whose message carries the status code
    and the raw response text; a caller that awaits the helper ends with the
    same error; and the log has grown by that one request only, so nothing
    was retried. *)
Theorem tessieRequest_remote_error (o : TessieRequestOptions) (w : World)
  (r : Response) :
  has_token w = true ->
  result (remote w (trace w) (request_for o (token_of w))) = Resolved r ->
  resp_ok r = false ->
  let failure :=
    Error ("Tessie API error " ++ String_Z (resp_status r) ++ ": " ++
           resp_text r) in
  let w' := snd (tessieRequest o w) in
  tessieRequest o w = (Throw failure, w') /\
  (forall (B : Type) (k : Json -> M B),
      bind (tessieRequest o) k w = (Throw failure, w')) /\
  exists reply,
    trace w' = (trace w ++ [EvFetch (request_for o (token_of w)) reply])%list /\
    result reply = Resolved r.
Proof.
  intros Htok Hres Hok failure w'.
  assert (Hrun : tessieRequest o w =
                 (Throw failure, answered w (request_for o (token_of w)))).
  { rewrite tessieRequest_run by exact Htok.
    unfold settle_reply, settle_response. rewrite Hres, Hok. reflexivity. }
  subst w'. rewrite Hrun. cbn [snd].
  split; [reflexivity|]. split.
  - intros B k. unfold bind. rewrite Hrun. reflexivity.
  - exists (remote w (trace w) (request_for o (token_of w))).
    split; [apply answered_trace|exact Hres].
Qed.

(** The same at the level of a command tool: when the gate has let the
    command through and the service answers it with a status outside
    200..299, the tool fails with that error and the command was posted
    once. *)
Lemma command_tool_remote_error (t : CommandTool) (vin : string)
  (wait_for_completion : option bool) (max_attempts : option number)
  (w w1 : World) (r : Response) :
  ensureAwake vin w = (Normal tt, w1) ->
  has_token w1 = true ->
  result (remote w1 (trace w1)
            (request_for
               (command_options (command_path vin t)
                  (Some (command_params t wait_for_completion max_attempts)))
               (token_of w1))) = Resolved r ->
  resp_ok r = false ->
  exists cmd,
    command_tool t vin wait_for_completion max_attempts w =
      (Throw (Error ("Tessie API error " ++ String_Z (resp_status r) ++ ": " ++
                     resp_text r)),
       log w1 cmd (Z.of_N (duration (remote w1 (trace w1)
            (request_for
               (command_options (command_path vin t)
                  (Some (command_params t wait_for_completion max_attempts)))
               (token_of w1)))))) /\
    is_fetch POST (BASE_URL ++ command_path vin t) cmd = true.
Proof.
  intros Hwake Htok Hres Hok.
  rewrite command_tool_run, command_run, Hwake.
  unfold post. rewrite tessieRequest_run by exact Htok.
  fold (command_options (command_path vin t)
          (Some (command_params t wait_for_completion max_attempts))).
  unfold settle_reply, settle_response. rewrite Hres, Hok. cbn [negb].
  eexists. split; [reflexivity|]. apply command_request_is_post.
Qed.

(** The query a [params] object stands for: its defined entries, in order,
    each with its value stringified. *)
Definition present (ps : Params) : list (string * string) :=
  flat_map (fun entry => match snd entry with
                         | Some value => [(fst entry, ToString value)]
                         | None => []
                         end) ps.

Lemma set_first_fresh key value l :
  ~ In key (map fst l) -> set_first key value l = (l ++ [(key, value)])%list.
Proof.
  induction l as [|[k v] l IH]; intros Hfresh; [reflexivity|].
  cbn [set_first app].
  destruct (String.eqb_spec k key) as [->|Hne].
  - exfalso. apply Hfresh. left. reflexivity.
  - rewrite IH; [reflexivity|].
    intros Hin. apply Hfresh. right. exact Hin.
Qed.

Lemma present_keys ps k :
  In k (map fst (present ps)) -> exists v, In (k, Some v) ps.
Proof.
  induction ps as [|[k' [v'|]] ps IH]; cbn [present flat_map snd fst app map].
  - intros [].
  - intros [<-|Hin]; [exists v'; left; reflexivity|].
    destruct (IH Hin) as [v Hv]. exists v. right. exact Hv.
  - intros Hin. destruct (IH Hin) as [v Hv]. exists v. right. exact Hv.
Qed.

Lemma append_params_fresh ps :
  forall u,
    NoDup (map fst ps) ->
    (forall k, In k (map fst ps) -> ~ In k (map fst (searchParams u))) ->
    searchParams (append_params u ps) = (searchParams u ++ present ps)%list.
Proof.
  unfold append_params.
  induction ps as [|[k [v|]] ps IH]; intros u Hnd Hfresh;
    cbn [fold_left present flat_map snd fst].
  - rewrite app_nil_r. reflexivity.
  - inversion Hnd as [|? ? Hk Hnd']; subst.
    rewrite IH.
    + cbn [searchParams_set searchParams].
      rewrite set_first_fresh by (apply Hfresh; left; reflexivity).
      rewrite <- app_assoc. reflexivity.
    + exact Hnd'.
    + intros k' Hin. cbn [searchParams_set searchParams].
      rewrite set_first_fresh by (apply Hfresh; left; reflexivity).
      rewrite map_app, in_app_iff. cbn [map fst In].
      intros [Hold|[<-|[]]].
      * apply (Hfresh k'); [right; exact Hin|exact Hold].
      * exact (Hk Hin).
  - inversion Hnd as [|? ? Hk Hnd']; subst.
    cbn [app]. apply IH; [exact Hnd'|].
    intros k' Hin. apply Hfresh. right. exact Hin.
Qed.

(** The pairs of a query that are named [k]. *)
Definition entries (k : string) (l : list (string * string))
  : list (string * string) :=
  filter (fun p => (fst p =? k)%string) l.

(** The value [params] defines for [k], if it defines one. *)
Definition given (k : string) (ps : Params) : option Scalar :=
  match find (fun entry => (fst entry =? k)%string) ps with
  | Some (_, Some value) => Some value
  | _ => None
  end.

Lemma entries_without k l :
  entries k (filter (fun p => negb (fst p =? k)%string) l) = [].
Proof.
  unfold entries. induction l as [|[a b] l IH]; [reflexivity|].
  cbn [filter fst]. destruct (String.eqb_spec a k) as [->|Hne]; cbn [negb].
  - exact IH.
  - cbn [filter fst]. destruct (String.eqb_spec a k); [contradiction|exact IH].
Qed.

Lemma entries_without_other k k' l :
  k <> k' ->
  entries k (filter (fun p => negb (fst p =? k')%string) l) = entries k l.
Proof.
  intros Hne. unfold entries. induction l as [|[a b] l IH]; [reflexivity|].
  cbn [filter fst]. destruct (String.eqb_spec a k') as [->|Ha]; cbn [negb].
  - destruct (String.eqb_spec k' k); [congruence|exact IH].
  - cbn [filter fst]. rewrite IH. reflexivity.
Qed.

Lemma entries_set_first_same k value l :
  entries k (set_first k value l) = [(k, value)].
Proof.
  unfold entries. induction l as [|[a b] l IH]; cbn [set_first].
  - cbn [filter fst]. rewrite String.eqb_refl. reflexivity.
  - destruct (String.eqb_spec a k) as [->|Hne].
    + cbn [filter fst]. rewrite String.eqb_refl.
      f_equal. exact (entries_without k l).
    + cbn [filter fst].
      destruct (String.eqb_spec a k); [contradiction|]. exact IH.
Qed.

Lemma entries_set_first_other k k' value l :
  k <> k' -> entries k (set_first k' value l) = entries k l.
Proof.
  intros Hne. unfold entries.
  induction l as [|[a b] l IH]; cbn [set_first].
  - cbn [filter fst].
    destruct (String.eqb_spec k' k); [congruence|reflexivity].
  - destruct (String.eqb_spec a k') as [->|Ha].
    + cbn [filter fst].
      destruct (String.eqb_spec k' k); [congruence|].
      exact (entries_without_other k k' l Hne).
    + cbn [filter fst]. rewrite IH. reflexivity.
Qed.

(** What the loop over [params] leaves under a key: the stringified value
    when [params] defines one, and what the URL held before otherwise. *)
Lemma entries_append_params k ps :
  forall u,
    NoDup (map fst ps) ->
    entries k (searchParams (append_params u ps)) =
      match given k ps with
      | Some value => [(k, ToString value)]
      | None => entries k (searchParams u)
      end.
Proof.
  unfold append_params, given.
  induction ps as [|[k0 ov] ps IH]; intros u Hnd; [reflexivity|].
  inversion Hnd as [|? ? Hk Hnd']; subst.
  cbn [fold_left find fst snd]. rewrite (IH _ Hnd').
  destruct (String.eqb_spec k0 k) as [->|Hne].
  - assert (Hnone : find (fun entry : string * option Scalar =>
                            (fst entry =? k)%string) ps = None).
    { destruct (find _ ps) as [[k1 o1]|] eqn:Hf; [|reflexivity].
      apply find_some in Hf as [Hin Heq]. cbn [fst] in Heq.
      apply String.eqb_eq in Heq. subst k1.
      exfalso. apply Hk. apply (in_map fst _ _ Hin). }
    rewrite Hnone. destruct ov as [value|]; [|reflexivity].
    cbn [searchParams_set searchParams]. apply entries_set_first_same.
  - destruct (find _ ps) as [[k1 [v1|]]|]; try reflexivity;
      (destruct ov as [value|]; [|reflexivity]);
      cbn [searchParams_set searchParams];
      apply entries_set_first_other; congruence.
Qed.

Lemma given_of_entry k ov (ps : Params) :
  NoDup (map fst ps) -> In (k, ov) ps -> given k ps = ov.
Proof.
  unfold given. induction ps as [|[k0 o0] ps IH]; intros Hnd Hin; [destruct Hin|].
  inversion Hnd as [|? ? Hk Hnd']; subst. cbn [find fst].
  destruct Hin as [E|Hin].
  - injection E as -> ->. rewrite String.eqb_refl. destruct ov; reflexivity.
  - destruct (String.eqb_spec k0 k) as [->|Hne].
    + exfalso. apply Hk. apply (in_map fst _ _ Hin).
    + apply IH; assumption.
Qed.

(** C9.  In the request [tessieRequest] sends for a [params] object, an
    entry whose value is [undefined] is left out: under its key the query
    holds what the URL held before the entries were added, which is nothing
    unless the path carries a query of its own.  An entry with a value is in
    the query once, under its key, with the value stringified by
    [String(...)].  When the path carries no query of its own, the query is
    exactly the defined entries of [params], in order, so that the key of
    an [undefined] entry does not occur in it at all. *)
Theorem tessieRequest_query (o : TessieRequestOptions) (w : World)
  (ps : Params) :
  has_token w = true ->
  params o = Some ps ->
  NoDup (map fst ps) ->
  exists req reply,
    trace (snd (tessieRequest o w)) = (trace w ++ [EvFetch req reply])%list /\
    (forall k, In (k, None) ps ->
       entries k (searchParams (req_url req)) =
       entries k (URL_query (BASE_URL ++ path o))) /\
    (forall k v, In (k, Some v) ps ->
       entries k (searchParams (req_url req)) = [(k, ToString v)]) /\
    (URL_query (BASE_URL ++ path o) = [] ->
       searchParams (req_url req) = present ps /\
       (forall k, In (k, None) ps ->
                  ~ In k (map fst (searchParams (req_url req)))) /\
       (forall k v, In (k, Some v) ps ->
                    In (k, ToString v) (searchParams (req_url req)))).
Proof.
  intros Htok Hps Hnd.
  rewrite tessieRequest_run by exact Htok. cbn [snd].
  exists (request_for o (token_of w)),
         (remote w (trace w) (request_for o (token_of w))).
  split; [apply answered_trace|].
  assert (Hurl : req_url (request_for o (token_of w)) =
                 append_params (new_URL (BASE_URL ++ path o)) ps).
  { unfold request_for. cbn [req_url]. rewrite Hps. reflexivity. }
  rewrite Hurl. split; [|split].
  - intros k Hin. rewrite entries_append_params by exact Hnd.
    rewrite (given_of_entry k None ps Hnd Hin). reflexivity.
  - intros k v Hin. rewrite entries_append_params by exact Hnd.
    rewrite (given_of_entry k (Some v) ps Hnd Hin). reflexivity.
  - intros Hplain.
    assert (Hq : searchParams (append_params (new_URL (BASE_URL ++ path o)) ps)
                 = present ps).
    { rewrite append_params_fresh; [|exact Hnd|].
      - cbn [new_URL searchParams]. rewrite Hplain. reflexivity.
      - intros k _. cbn [new_URL searchParams]. rewrite Hplain. intros []. }
    rewrite Hq. split; [reflexivity|]. split.
    + intros k Hnone Hin.
      destruct (present_keys ps k Hin) as [v Hv].
      pose proof (given_of_entry k None ps Hnd Hnone) as H1.
      pose proof (given_of_entry k (Some v) ps Hnd Hv) as H2.
      congruence.
    + intros k v Hin. unfold present. apply in_flat_map.
      exists (k, Some v). split; [exact Hin|]. left. reflexivity.
Qed.

(** ** VIN resolution *)

Definition VIN_REQUIRED : JsError :=
  Error ("VIN is required. Provide it as a parameter or set " ++
         "TESSIE_DEFAULT_VIN environment variable.").

Lemma truthy_nonempty v : v <> "" -> truthy (Some v) = true.
Proof.
  intros Hne. unfold truthy.
  destruct (String.eqb_spec v ""); [contradiction|reflexivity].
Qed.

Lemma VinSchema_explicit v w :
  v <> "" -> VinSchema (Some v) w = (Normal v, w).
Proof.
  intros Hne. unfold VinSchema, bind.
  rewrite (truthy_nonempty v Hne). unfold ret at 1.
  rewrite (truthy_nonempty v Hne). reflexivity.
Qed.

Lemma VinSchema_falsy val w :
  truthy val = false ->
  VinSchema val w =
    if truthy (TESSIE_DEFAULT_VIN (env w))
    then (Normal (match TESSIE_DEFAULT_VIN (env w) with
                  | Some d => d
                  | None => ""
                  end), w)
    else (Throw VIN_REQUIRED, w).
Proof.
  intros Hval. unfold VinSchema, bind. rewrite Hval.
  unfold getDefaultVin, bind, process_env, ret at 1.
  destruct (truthy (TESSIE_DEFAULT_VIN (env w))); reflexivity.
Qed.

(** C4.  The [vin] a vehicle-scoped tool runs with: an explicit (non-empty)
    argument is used whatever the default is; without an argument the
    configured (non-empty) [TESSIE_DEFAULT_VIN] is used; with neither (the
    variable undefined or empty), the tool call fails with the VIN-required
    error and the handler is never entered, so the world is untouched and
    no request has gone out. *)
Theorem VinSchema_resolution_order (w : World) :
  (forall v, v <> "" ->
     VinSchema (Some v) w = (Normal v, w) /\
     forall (A : Type) (handler : string -> M A),
       vehicle_tool handler (Some v) w = handler v w) /\
  (forall d, TESSIE_DEFAULT_VIN (env w) = Some d -> d <> "" ->
     VinSchema None w = (Normal d, w) /\
     forall (A : Type) (handler : string -> M A),
       vehicle_tool handler None w = handler d w) /\
  (truthy (TESSIE_DEFAULT_VIN (env w)) = false ->
     VinSchema None w =
       (Throw (Error ("VIN is required. Provide it as a parameter or set " ++
                      "TESSIE_DEFAULT_VIN environment variable.")), w) /\
     forall (A : Type) (handler : string -> M A),
       vehicle_tool handler None w = (Throw VIN_REQUIRED, w)).
Proof.
  split; [|split].
  - intros v Hne. split; [apply VinSchema_explicit; exact Hne|].
    intros A handler. unfold vehicle_tool, bind.
    rewrite VinSchema_explicit by exact Hne. reflexivity.
  - intros d Hd Hne.
    assert (H : VinSchema None w = (Normal d, w)).
    { rewrite VinSchema_falsy by reflexivity.
      rewrite Hd, (truthy_nonempty d Hne). reflexivity. }
    split; [exact H|].
    intros A handler. unfold vehicle_tool, bind. rewrite H. reflexivity.
  - intros Hd.
    assert (H : VinSchema None w = (Throw VIN_REQUIRED, w)).
    { rewrite VinSchema_falsy by reflexivity. rewrite Hd. reflexivity. }
    split; [exact H|].
    intros A handler. unfold vehicle_tool, bind. rewrite H. reflexivity.
Qed.

(** C10.  An explicit [vin] that is the empty string resolves exactly as a
    missing one: to the configured default when there is a (non-empty) one,
    and to the VIN-required error otherwise. *)
Theorem VinSchema_empty_is_absent (w : World) :
  VinSchema (Some "") w = VinSchema None w /\
  (forall (A : Type) (handler : string -> M A),
     vehicle_tool handler (Some "") w = vehicle_tool handler None w) /\
  (forall d, TESSIE_DEFAULT_VIN (env w) = Some d -> d <> "" ->
     VinSchema (Some "") w = (Normal d, w)) /\
  (truthy (TESSIE_DEFAULT_VIN (env w)) = false ->
     VinSchema (Some "") w = (Throw VIN_REQUIRED, w)).
Proof.
  assert (H : VinSchema (Some "") w = VinSchema None w).
  { rewrite !VinSchema_falsy by reflexivity. reflexivity. }
  split; [exact H|]. split; [|split].
  - intros A handler. unfold vehicle_tool, bind. rewrite H. reflexivity.
  - intros d Hd Hne. rewrite VinSchema_falsy by reflexivity.
    rewrite Hd, (truthy_nonempty d Hne). reflexivity.
  - intros Hd. rewrite VinSchema_falsy by reflexivity.
    rewrite Hd. reflexivity.
Qed.

(** ** Read-only operations *)

Lemma append_params_href ps : forall u, href (append_params u ps) = href u.
Proof.
  unfold append_params.
  induction ps as [|[k [v|]] ps IH]; intros u; cbn [fold_left snd fst];
    [reflexivity| |]; rewrite IH; reflexivity.
Qed.

Definition get_options (url_path : string) (ps : option Params)
  : TessieRequestOptions :=
  {| method := Some GET; path := url_path; params := ps; body := None |}.

Lemma get_request_is_get url_path ps token reply :
  is_fetch GET (BASE_URL ++ url_path)
    (EvFetch (request_for (get_options url_path ps) token) reply) = true.
Proof.
  unfold is_fetch, request_for, get_options.
  cbn [method params body path req_method req_url Method_eqb andb].
  destruct ps as [l|]; [rewrite append_params_href|]; apply String.eqb_refl.
Qed.

Lemma getDefaultDistanceFormat_pure w :
  exists v, getDefaultDistanceFormat w = (Normal v, w).
Proof.
  unfold getDefaultDistanceFormat, bind, process_env.
  destruct (TESSIE_DISTANCE_FORMAT (env w)) as [v|]; [|eexists; reflexivity].
  destruct (v =? "mi")%string; [eexists; reflexivity|].
  destruct (v =? "km")%string; eexists; reflexivity.
Qed.

Lemma getDefaultTempFormat_pure w :
  exists v, getDefaultTempFormat w = (Normal v, w).
Proof.
  unfold getDefaultTempFormat, bind, process_env.
  destruct (TESSIE_TEMP_FORMAT (env w)) as [v|]; [|eexists; reflexivity].
  destruct (v =? "f")%string; [eexists; reflexivity|].
  destruct (v =? "c")%string; eexists; reflexivity.
Qed.

Lemma getDefaultPressureFormat_pure w :
  exists v, getDefaultPressureFormat w = (Normal v, w).
Proof.
  unfold getDefaultPressureFormat, bind, process_env.
  destruct (TESSIE_PRESSURE_FORMAT (env w)) as [v|]; [|eexists; reflexivity].
  destruct (v =? "psi")%string; [eexists; reflexivity|].
  destruct (v =? "bar")%string; [eexists; reflexivity|].
  destruct (v =? "kpa")%string; eexists; reflexivity.
Qed.

Lemma nullish_pure {A} (given : option A) (fallback : M (option A)) w :
  (exists v, fallback w = (Normal v, w)) ->
  exists v, nullish given fallback w = (Normal v, w).
Proof.
  intros H. destruct given as [a|]; [eexists; reflexivity|exact H].
Qed.

(** Building the [params] object reads the environment at most. *)
Lemma read_params_pure t w : exists ps, read_params t w = (Normal ps, w).
Proof.
  pose proof (getDefaultDistanceFormat_pure w) as Hd.
  pose proof (getDefaultTempFormat_pure w) as Ht.
  pose proof (getDefaultPressureFormat_pure w) as Hp.
  destruct t; cbn [read_params]; try (eexists; reflexivity); unfold bind.
  - destruct (nullish_pure distance_format _ w Hd) as [v ->].
    eexists; reflexivity.
  - destruct (nullish_pure pressure_format _ w Hp) as [v ->].
    eexists; reflexivity.
  - destruct (nullish_pure distance_format _ w Hd) as [v ->].
    destruct (nullish_pure temperature_format _ w Ht) as [v' ->].
    eexists; reflexivity.
  - destruct (nullish_pure distance_format _ w Hd) as [v ->].
    eexists; reflexivity.
  - destruct (nullish_pure distance_format _ w Hd) as [v ->].
    eexists; reflexivity.
Qed.

Lemma read_tool_run t w :
  exists ps,
    read_tool t w =
      match get (read_path t) ps w with
      | (Normal data, w') => (Normal (TextContent data), w')
      | (Throw e, w') => (Throw e, w')
      | (Unfinished, w') => (Unfinished, w')
      end.
Proof.
  destruct (read_params_pure t w) as [ps Hps]. exists ps.
  unfold read_tool. unfold bind at 1. rewrite Hps.
  unfold bind. destruct (get _ _ _) as [[data|e|] w']; reflexivity.
Qed.

Lemma get_with_token url_path ps w :
  has_token w = true ->
  exists e,
    trace (snd (get url_path ps w)) = (trace w ++ [e])%list /\
    is_fetch GET (BASE_URL ++ url_path) e = true /\
    env (snd (get url_path ps w)) = env w /\
    fst (get url_path ps w) = event_outcome e.
Proof.
  intros Htok. unfold get. fold (get_options url_path ps).
  rewrite tessieRequest_run by exact Htok. cbn [fst snd].
  eexists. split; [apply answered_trace|].
  split; [apply get_request_is_get|]. split; reflexivity.
Qed.

Lemma get_finishes url_path ps w : fst (get url_path ps w) <> Unfinished.
Proof.
  unfold get. destruct (has_token w) eqn:Htok.
  - rewrite tessieRequest_run by exact Htok. apply settle_reply_finished.
  - rewrite tessieRequest_no_token by exact Htok. discriminate.
Qed.

(** The world with its clock set to [t]. *)
Definition at_time (t : Z) (w : World) : World :=
  {| env := env w; now := t; remote := remote w; lateness := lateness w;
     trace := trace w |}.

(** How a promise that finishes settles. *)
Definition settlement {A} (out : Completion A) : PromiseSettledResult A :=
  match out with
  | Normal a => fulfilled a
  | Throw e => rejected e
  | Unfinished => rejected (Error "")
  end.

Lemma settled_run {A} (p : M A) w :
  fst (p w) <> Unfinished ->
  settled p w = (Normal (settlement (fst (p w))), snd (p w)).
Proof.
  unfold settled. destruct (p w) as [[a|e|] w']; cbn [fst snd];
    [reflexivity|reflexivity|congruence].
Qed.

Lemma Promise_allSettled3_run {A} (p1 p2 p3 : M A) w r1 r2 r3 w1 w2 w3 :
  settled p1 w = (Normal r1, w1) ->
  settled p2 (at_time (now w) w1) = (Normal r2, w2) ->
  settled p3 (at_time (now w) w2) = (Normal r3, w3) ->
  Promise_allSettled3 p1 p2 p3 w =
    (Normal (r1, r2, r3),
     at_time (Z.max (now w1) (Z.max (now w2) (now w3))) w3).
Proof.
  intros H1 H2 H3. unfold Promise_allSettled3.
  unfold bind at 1. unfold Date_now at 1.
  unfold bind at 1. rewrite H1.
  unfold bind at 1. unfold Date_now at 1.
  unfold bind at 1. unfold set_clock at 1. fold (at_time (now w) w1).
  unfold bind at 1. rewrite H2.
  unfold bind at 1. unfold Date_now at 1.
  unfold bind at 1. unfold set_clock at 1. fold (at_time (now w) w2).
  unfold bind at 1. rewrite H3.
  unfold bind at 1. unfold Date_now at 1.
  unfold bind at 1. unfold set_clock at 1. reflexivity.
Qed.

Definition battery_path (vin : string) : string := "/" ++ vin ++ "/battery".
Definition location_path (vin : string) : string := "/" ++ vin ++ "/location".
Definition state_path (vin : string) : string := "/" ++ vin ++ "/state".
Definition use_cache_true : option Params :=
  Some [("use_cache", Some (SBoolean true))].

(** The worlds the three reads of [get_full_status] leave. *)
Definition battery_read (vin : string) (w : World) : World :=
  snd (get (battery_path vin) None w).
Definition location_read (vin : string) (w : World) : World :=
  snd (get (location_path vin) None (at_time (now w) (battery_read vin w))).
Definition state_read (vin : string) (w : World) : World :=
  snd (get (state_path vin) use_cache_true
           (at_time (now w) (location_read vin w))).

Lemma get_full_status_run vin w :
  let battery :=
    settlement (fst (get (battery_path vin) None w)) in
  let location :=
    settlement (fst (get (location_path vin) None
                         (at_time (now w) (battery_read vin w)))) in
  let state :=
    settlement (fst (get (state_path vin) use_cache_true
                         (at_time (now w) (location_read vin w)))) in
  settled (get (battery_path vin) None) w
    = (Normal battery, battery_read vin w) /\
  settled (get (location_path vin) None) (at_time (now w) (battery_read vin w))
    = (Normal location, location_read vin w) /\
  settled (get (state_path vin) use_cache_true)
          (at_time (now w) (location_read vin w))
    = (Normal state, state_read vin w) /\
  get_full_status vin w =
    (Normal (TextContent (JObject [("battery", slot battery);
                                   ("location", slot location);
                                   ("state", slot state)])),
     at_time (Z.max (now (battery_read vin w))
                    (Z.max (now (location_read vin w))
                           (now (state_read vin w))))
             (state_read vin w)).
Proof.
  intros battery location state.
  pose proof (settled_run (get (battery_path vin) None) w
                (get_finishes _ _ _)) as H1.
  pose proof (settled_run (get (location_path vin) None)
                (at_time (now w) (battery_read vin w))
                (get_finishes _ _ _)) as H2.
  pose proof (settled_run (get (state_path vin) use_cache_true)
                (at_time (now w) (location_read vin w))
                (get_finishes _ _ _)) as H3.
  split; [exact H1|]. split; [exact H2|]. split; [exact H3|].
  unfold get_full_status. unfold bind at 1.
  fold (battery_path vin). fold (location_path vin). fold (state_path vin).
  fold use_cache_true.
  rewrite (Promise_allSettled3_run _ _ _ _ _ _ _ _ _ _ H1 H2 H3).
  reflexivity.
Qed.

(** The three exchanges of [get_full_status], and the slots read off
    them. *)
Lemma get_full_status_exchanges vin w :
  has_token w = true ->
  exists e1 e2 e3 w',
    get_full_status vin w =
      (Normal (TextContent
         (JObject [("battery", slot (settlement (event_outcome e1)));
                   ("location", slot (settlement (event_outcome e2)));
                   ("state", slot (settlement (event_outcome e3)))])), w') /\
    trace w' = (trace w ++ [e1; e2; e3])%list /\
    is_fetch GET (BASE_URL ++ battery_path vin) e1 = true /\
    is_fetch GET (BASE_URL ++ location_path vin) e2 = true /\
    is_fetch GET (BASE_URL ++ state_path vin) e3 = true.
Proof.
  intros Htok.
  destruct (get_full_status_run vin w) as (_ & _ & _ & Hrun).
  destruct (get_with_token (battery_path vin) None w Htok)
    as (e1 & Ht1 & Hf1 & He1 & Ho1).
  fold (battery_read vin w) in Ht1, He1.
  assert (Htok1 : has_token (at_time (now w) (battery_read vin w)) = true).
  { unfold has_token, at_time. cbn [env]. rewrite He1. exact Htok. }
  destruct (get_with_token (location_path vin) None _ Htok1)
    as (e2 & Ht2 & Hf2 & He2 & Ho2).
  fold (location_read vin w) in Ht2, He2.
  assert (Htok2 : has_token (at_time (now w) (location_read vin w)) = true).
  { unfold has_token, at_time. cbn [env]. rewrite He2. exact Htok1. }
  destruct (get_with_token (state_path vin) use_cache_true _ Htok2)
    as (e3 & Ht3 & Hf3 & _ & Ho3).
  fold (state_read vin w) in Ht3.
  exists e1, e2, e3. eexists.
  split; [rewrite Hrun, Ho1, Ho2, Ho3; reflexivity|].
  split; [|repeat split; assumption].
  unfold at_time at 1. cbn [trace]. rewrite Ht3.
  unfold at_time at 1. cbn [trace]. rewrite Ht2.
  unfold at_time at 1. cbn [trace]. rewrite Ht1.
  rewrite <- !app_assoc. reflexivity.
Qed.

(** [{ error: text }] *)
Definition error_descriptor (text : string) : Json :=
  JObject [("error", JString text)].

(** The slot [filled] reports the logged exchange [e]: it is the payload
    when the read of [e] succeeded and, when it failed, the descriptor that
    holds the message of its error; for an answer outside 200..299 that is
    the descriptor with the status and the raw text. *)
Definition fills (e : Event) (filled : Json) : Prop :=
  match e with
  | EvFetch _ reply =>
      match settle_reply reply with
      | Normal payload => filled = payload
      | Throw err => filled = error_descriptor (message err)
      | Unfinished => False
      end /\
      (forall r,
          result reply = Resolved r -> resp_ok r = false ->
          filled = error_descriptor ("Tessie API error " ++
                                     String_Z (resp_status r) ++ ": " ++
                                     resp_text r))
  | EvTimeout _ => False
  end.

Lemma slot_fills m url e :
  is_fetch m url e = true -> fills e (slot (settlement (event_outcome e))).
Proof.
  destruct e as [req reply|ms]; [intros _|discriminate].
  cbn [fills event_outcome]. split.
  - pose proof (settle_reply_finished reply) as Hfin.
    destruct (settle_reply reply) as [payload|err|];
      [reflexivity|reflexivity|congruence].
  - intros r Hres Hok. unfold settle_reply, settle_response.
    rewrite Hres, Hok. reflexivity.
Qed.

(** C6.  [get_full_status] always returns, whatever becomes of its three
    reads.  With a token it sends the three reads, battery, location and
    state, and its result has one slot for each, filled from the exchange
    of that read alone: the payload when the read succeeded, the error
    descriptor when it failed (for an HTTP 500 the one with that status and
    the response text).  So when exactly one read fails, its slot holds the
    error descriptor and the other two hold their payloads. *)
Theorem get_full_status_settles (vin : string) (w : World) :
  (exists result w',
      get_full_status vin w = (Normal (TextContent result), w')) /\
  (has_token w = true ->
   exists e1 e2 e3 battery location state w',
     get_full_status vin w =
       (Normal (TextContent (JObject [("battery", battery);
                                      ("location", location);
                                      ("state", state)])), w') /\
     trace w' = (trace w ++ [e1; e2; e3])%list /\
     is_fetch GET (BASE_URL ++ "/" ++ vin ++ "/battery") e1 = true /\
     is_fetch GET (BASE_URL ++ "/" ++ vin ++ "/location") e2 = true /\
     is_fetch GET (BASE_URL ++ "/" ++ vin ++ "/state") e3 = true /\
     fills e1 battery /\ fills e2 location /\ fills e3 state).
Proof.
  split.
  - destruct (get_full_status_run vin w) as (_ & _ & _ & Hrun).
    do 2 eexists. exact Hrun.
  - intros Htok.
    destruct (get_full_status_exchanges vin w Htok)
      as (e1 & e2 & e3 & w' & Hrun & Htr & H1 & H2 & H3).
    exists e1, e2, e3. do 3 eexists. exists w'.
    split; [exact Hrun|]. split; [exact Htr|].
    split; [exact H1|]. split; [exact H2|]. split; [exact H3|].
    split; [exact (slot_fills _ _ _ H1)|].
    split; [exact (slot_fills _ _ _ H2)|exact (slot_fills _ _ _ H3)].
Qed.

(** The paths a resource read fetches. *)
Definition resource_paths (uri : ResourceUri) : list string :=
  match uri with
  | uri_vehicles => ["/vehicles"]
  | uri_state vin => [state_path vin]
  | uri_status vin => ["/" ++ vin ++ "/status"]
  | uri_unknown _ => []
  end.

(** The handler's result for what [get] gave it:
    [return { content: [{ type: "text", text: JSON.stringify(data) }] }]. *)
Definition text_result (r : Completion Json * World)
  : Completion ToolResult * World :=
  match r with
  | (Normal data, w') => (Normal (TextContent data), w')
  | (Throw e, w') => (Throw e, w')
  | (Unfinished, w') => (Unfinished, w')
  end.

Lemma get_without_token url_path ps w :
  has_token w = false -> get url_path ps w = (Throw TOKEN_REQUIRED, w).
Proof. intros H. unfold get. apply tessieRequest_no_token. exact H. Qed.

Lemma read_tool_is_get t w :
  exists ps,
    read_params t w = (Normal ps, w) /\
    read_tool t w = text_result (get (read_path t) ps w).
Proof.
  destruct (read_params_pure t w) as [ps Hps]. exists ps.
  split; [exact Hps|].
  unfold read_tool. unfold bind at 1. rewrite Hps.
  unfold bind, text_result.
  destruct (get _ _ _) as [[data|e|] w']; reflexivity.
Qed.

Lemma text_result_world r : snd (text_result r) = snd r.
Proof. destruct r as [[data|e|] w']; reflexivity. Qed.

(** C5.  A read-only operation goes straight to the transport client.  A
    read tool is one call of [get] on its own path: with a token the log
    grows by exactly that [GET], and without one the tool fails with the
    token error and nothing is logged.  [get_full_status] logs exactly its
    three [GET]s, a resource read exactly the [GET] of its resource.  So no
    status check and no wake command is sent before the operation's
    request, and no wait is made. *)
Theorem read_operations_bypass_wake_gate :
  (forall (t : ReadTool) (w : World),
      (exists ps,
          read_params t w = (Normal ps, w) /\
          read_tool t w = text_result (get (read_path t) ps w)) /\
      (has_token w = true ->
       exists e,
         trace (snd (read_tool t w)) = (trace w ++ [e])%list /\
         is_fetch GET (BASE_URL ++ read_path t) e = true) /\
      (has_token w = false ->
       read_tool t w = (Throw TOKEN_REQUIRED, w))) /\
  (forall (vin : string) (w : World),
      (has_token w = true ->
       exists e1 e2 e3,
         trace (snd (get_full_status vin w)) = (trace w ++ [e1; e2; e3])%list /\
         is_fetch GET (BASE_URL ++ "/" ++ vin ++ "/battery") e1 = true /\
         is_fetch GET (BASE_URL ++ "/" ++ vin ++ "/location") e2 = true /\
         is_fetch GET (BASE_URL ++ "/" ++ vin ++ "/state") e3 = true) /\
      (has_token w = false ->
       trace (snd (get_full_status vin w)) = trace w)) /\
  (forall (uri : ResourceUri) (w : World),
      (has_token w = true ->
       exists evs,
         trace (snd (ReadResource uri w)) = (trace w ++ evs)%list /\
         Forall2 (fun p e => is_fetch GET (BASE_URL ++ p) e = true)
                 (resource_paths uri) evs) /\
      (has_token w = false -> trace (snd (ReadResource uri w)) = trace w)).
Proof.
  split; [|split].
  - intros t w. destruct (read_tool_is_get t w) as (ps & Hps & Hrun).
    split; [exists ps; auto|]. split.
    + intros Htok. rewrite Hrun, text_result_world.
      destruct (get_with_token (read_path t) ps w Htok) as (e & Ht & Hf & _).
      exists e. split; assumption.
    + intros Htok. rewrite Hrun, get_without_token by exact Htok.
      reflexivity.
  - intros vin w. split.
    + intros Htok.
      destruct (get_full_status_exchanges vin w Htok)
        as (e1 & e2 & e3 & w' & Hrun & Htr & H1 & H2 & H3).
      exists e1, e2, e3. rewrite Hrun. cbn [snd]. auto.
    + intros Htok.
      destruct (get_full_status_run vin w) as (_ & _ & _ & ->). cbn [snd].
      unfold state_read, location_read, battery_read.
      rewrite (get_without_token _ _ w Htok). cbn [snd].
      rewrite (get_without_token _ _ (at_time (now w) w) Htok). cbn [snd].
      rewrite (get_without_token _ _ (at_time (now w) (at_time (now w) w)) Htok).
      reflexivity.
  - intros uri w. split.
    + intros Htok.
      destruct uri as [|vin|vin|u]; cbn [ReadResource resource_paths].
      * destruct (get_with_token "/vehicles" None w Htok) as (e & Ht & Hf & _).
        exists [e]. split; [exact Ht|]. repeat constructor. exact Hf.
      * destruct (get_with_token ("/" ++ vin ++ "/state")
                    (Some [("use_cache", Some (SBoolean true))]) w Htok)
          as (e & Ht & Hf & _).
        exists [e]. split; [exact Ht|]. repeat constructor. exact Hf.
      * destruct (get_with_token ("/" ++ vin ++ "/status") None w Htok)
          as (e & Ht & Hf & _).
        exists [e]. split; [exact Ht|]. repeat constructor. exact Hf.
      * exists []. split; [cbn; rewrite app_nil_r; reflexivity|constructor].
    + intros Htok.
      destruct uri as [|vin|vin|u]; cbn [ReadResource];
        try (rewrite get_without_token by exact Htok); reflexivity.
Qed.

End Server.

Arguments World : clear implicits.
Arguments Reply : clear implicits.
Arguments Response : clear implicits.
Arguments Request : clear implicits.
Arguments Event : clear implicits.
Arguments Json : clear implicits.
Arguments Scalar : clear implicits.
Arguments Params : clear implicits.
Arguments TessieRequestOptions : clear implicits.

(** * Scenarios

    The development instantiated at integer-valued numbers, run on concrete
    worlds. *)
Module Scenario.

Definition num : Type := Z.

(** The query of a URL string that has no percent escapes and no [+]: the
    text between the first [?] and the first [#], cut at every [&] into its
    non-empty pieces, each piece cut at its first [=]. *)
Fixpoint before_char (c : ascii) (s : string) : string :=
  match s with
  | EmptyString => EmptyString
  | String ch rest =>
      if Ascii.eqb ch c then EmptyString else String ch (before_char c rest)
  end.

Fixpoint after_char (c : ascii) (s : string) : option string :=
  match s with
  | EmptyString => None
  | String ch rest => if Ascii.eqb ch c then Some rest else after_char c rest
  end.

Fixpoint split_on (c : ascii) (s : string) : list string :=
  match s with
  | EmptyString => [EmptyString]
  | String ch rest =>
      if Ascii.eqb ch c then EmptyString :: split_on c rest
      else match split_on c rest with
           | piece :: pieces => String ch piece :: pieces
           | [] => [String ch EmptyString]
           end
  end.

Definition name_value (piece : string) : string * string :=
  match after_char "=" piece with
  | Some value => (before_char "=" piece, value)
  | None => (piece, EmptyString)
  end.

Definition query_of (s : string) : list (string * string) :=
  match after_char "?" (before_char "#" s) with
  | Some query =>
      map name_value
          (filter (fun piece => negb (piece =? EmptyString)%string)
                  (split_on "&" query))
  | None => []
  end.

Definition environment (token default_vin : option string) : Env :=
  {| TESSIE_API_TOKEN := token; TESSIE_DEFAULT_VIN := default_vin;
     TESSIE_DISTANCE_FORMAT := None; TESSIE_TEMP_FORMAT := None;
     TESSIE_PRESSURE_FORMAT := None |}.

(** A world at time 0 with an empty log. *)
Definition world (token : option string)
  (service : list (Event num) -> Request num -> Reply num) : World num :=
  {| env := environment token None; now := 0; remote := service;
     lateness := fun _ _ => 0%N; trace := [] |}.

(** [w] with timers that fire [ms] late. *)
Definition late (ms : N) (w : World num) : World num :=
  {| env := env w; now := now w; remote := remote w;
     lateness := fun _ _ => ms; trace := trace w |}.

Definition json_reply (ms : N) (code : Z) (raw : string) (data : Json num)
  : Reply num :=
  {| duration := ms;
     result := Resolved {| resp_status := code;
                           resp_content_type := Some "application/json";
                           resp_text := raw;
                           resp_json := fulfilled data |} |}.

Definition status_body (state : string) : Json num :=
  JObject [("status", JString state)].

Definition vin0 : string := "5YJ3E1EA7KF000001".

(** A vehicle that is awake; every exchange takes 40 ms. *)
Definition awake_service : list (Event num) -> Request num -> Reply num :=
  fun _ _ => json_reply 40 200 "awake" (status_body "awake").

(** A vehicle that never wakes; every exchange takes [ms]. *)
Definition asleep_service (ms : N) : list (Event num) -> Request num -> Reply num :=
  fun _ _ => json_reply ms 200 "asleep" (status_body "asleep").

(** A service that answers every [POST] with 503. *)
Definition unavailable_service : list (Event num) -> Request num -> Reply num :=
  fun _ req =>
    match req_method req with
    | GET => json_reply 40 200 "awake" (status_body "awake")
    | POST =>
        {| duration := 40;
           result := Resolved {| resp_status := 503;
                                 resp_content_type := Some "text/plain";
                                 resp_text := "service unavailable";
                                 resp_json := rejected (Error "invalid json") |} |}
    end.

(** A service whose location lookup fails with 500. *)
Definition location_down : list (Event num) -> Request num -> Reply num :=
  fun _ req =>
    if includes (href (req_url req)) "/location"
    then {| duration := 25;
            result := Resolved {| resp_status := 500;
                                  resp_content_type := Some "text/plain";
                                  resp_text := "internal error";
                                  resp_json := rejected (Error "invalid json") |} |}
    else json_reply 40 200 "payload" (JObject [("ok", JBoolean true)]).

(** A vehicle that is asleep until the wake command has been posted. *)
Definition waking_service : list (Event num) -> Request num -> Reply num :=
  fun tr _ =>
    if existsb is_post tr
    then json_reply 40 200 "awake" (status_body "awake")
    else json_reply 40 200 "asleep" (status_body "asleep").

Definition awake_world : World num := world (Some "tok") awake_service.
Definition slow_world : World num := world (Some "tok") (asleep_service 101).
Definition waking_world : World num := world (Some "tok") waking_service.
Definition unavailable_world : World num := world (Some "tok") unavailable_service.
Definition location_down_world : World num := world (Some "tok") location_down.
Definition unconfigured_world : World num := world None awake_service.

(** What an event was, without the payloads. *)
Inductive Kind : Type :=
| Fetched (m : Method) (url : string)
| Waited (ms : Z).

Definition kind (e : Event num) : Kind :=
  match e with
  | EvFetch req _ => Fetched (req_method req) (href (req_url req))
  | EvTimeout ms => Waited ms
  end.

(** *** Wake gate *)

Example lock_awake_vehicle :
  map kind (trace (snd (command_tool String_Z query_of lock vin0 None None awake_world)))
  = [Fetched GET "https://api.tessie.com/5YJ3E1EA7KF000001/status";
     Fetched POST "https://api.tessie.com/5YJ3E1EA7KF000001/command/lock"].
Proof. vm_compute. reflexivity. Qed.

(** On a sleeping vehicle the command follows the wake command, one wait
    and a second status check. *)
Example lock_sleeping_vehicle :
  map kind (trace (snd (command_tool String_Z query_of lock vin0 None None waking_world)))
  = [Fetched GET "https://api.tessie.com/5YJ3E1EA7KF000001/status";
     Fetched POST "https://api.tessie.com/5YJ3E1EA7KF000001/wake";
     Waited 3000;
     Fetched GET "https://api.tessie.com/5YJ3E1EA7KF000001/status";
     Fetched POST "https://api.tessie.com/5YJ3E1EA7KF000001/command/lock"].
Proof. vm_compute. reflexivity. Qed.

Lemma ensureAwake_fast_path_witness :
  isVehicleAwake String_Z query_of vin0 awake_world =
    (Normal true, checked String_Z query_of vin0 awake_world) /\
  ensureAwake String_Z query_of vin0 awake_world =
    (Normal tt, checked String_Z query_of vin0 awake_world).
Proof.
  split; [reflexivity|].
  exact (proj1 (ensureAwake_fast_path String_Z query_of vin0 awake_world
                  (checked String_Z query_of vin0 awake_world) eq_refl)).
Defined.

(** *** Timeout *)

Lemma slow_world_never_awake : never_awake String_Z query_of vin0 slow_world.
Proof.
  split; [reflexivity|]. split.
  - intros tr. reflexivity.
  - intros tr. eexists. reflexivity.
Defined.

(** The same vehicle seen through timers that fire 4 ms late. *)
Definition late_world : World num := late 4 slow_world.

Lemma late_world_never_awake : never_awake String_Z query_of vin0 late_world.
Proof.
  split; [reflexivity|]. split.
  - intros tr. reflexivity.
  - intros tr. eexists. reflexivity.
Defined.

Lemma ensureAwake_times_out_witness :
  never_awake String_Z query_of vin0 late_world /\
  (forall tr ms, Z.of_N (lateness late_world tr ms) <= 4) /\
  (forall tr, Z.of_N (duration (remote late_world tr
                                  (status_check String_Z query_of vin0
                                                late_world)))
              <= 101) /\
  exists w',
    ensureAwake String_Z query_of vin0 late_world =
      (Throw (WAKE_TIMED_OUT vin0), w') /\
    now (polling_began String_Z query_of vin0 late_world) + 90000 <= now w' /\
    now w' < now (polling_began String_Z query_of vin0 late_world) + 93105.
Proof.
  assert (Hlate : forall (tr : list (Event num)) (ms : Z),
             Z.of_N (lateness late_world tr ms) <= 4).
  { intros tr ms. cbn. lia. }
  assert (Hdur : forall tr : list (Event num),
             Z.of_N (duration (remote late_world tr
                                 (status_check String_Z query_of vin0
                                               late_world)))
             <= 101).
  { intros tr. cbn. lia. }
  split; [exact late_world_never_awake|]. split; [exact Hlate|].
  split; [exact Hdur|].
  destruct (ensureAwake_times_out String_Z query_of vin0 late_world 4 101
              late_world_never_awake Hlate Hdur)
    as (check & wake & polls & w' & Hrun & _ & _ & _ & _ & _ & _ & _ & Hlo & Hhi).
  exists w'. split; [exact Hrun|]. split; [exact Hlo|exact Hhi].
Defined.

(** With timers 4 ms late a round of the loop takes 3105 ms: the
    twenty-ninth check ends 90045 ms after polling began, past the
    deadline, and there is no thirtieth. *)
Example late_timers_end_the_loop_sooner :
  fst (ensureAwake String_Z query_of vin0 late_world) =
    Throw (WAKE_TIMED_OUT vin0) /\
  now (snd (ensureAwake String_Z query_of vin0 late_world))
  - now (polling_began String_Z query_of vin0 late_world) = 90045.
Proof. split; vm_compute; reflexivity. Qed.

(** With status checks that take 101 ms each, the thirtieth check starts
    before the deadline and the error is thrown 93030 ms after polling
    began. *)
Example slow_checks_overshoot :
  fst (ensureAwake String_Z query_of vin0 slow_world) = Throw (WAKE_TIMED_OUT vin0) /\
  now (snd (ensureAwake String_Z query_of vin0 slow_world))
  - now (polling_began String_Z query_of vin0 slow_world) = 93030.
Proof. split; vm_compute; reflexivity. Qed.

(** C3 as stated fails: the bound of one poll interval past the ceiling
    does not hold in [slow_world]. *)
Lemma times_out_within_one_interval_fails :
  ~ times_out_within_one_interval String_Z query_of.
Proof.
  intros H.
  destruct (H vin0 slow_world slow_world_never_awake) as (w' & Hrun & _ & Hup).
  apply (f_equal (fun r => now (snd r))) in Hrun.
  cbn [snd] in Hrun. rewrite <- Hrun in Hup.
  vm_compute in Hup. apply Hup. reflexivity.
Qed.

(** *** Transport client *)

Definition lock_options : TessieRequestOptions num :=
  command_options ("/" ++ vin0 ++ "/command/lock")
                  (Some (command_params lock None None)).

Definition unavailable : Response num :=
  {| resp_status := 503; resp_content_type := Some "text/plain";
     resp_text := "service unavailable";
     resp_json := rejected (Error "invalid json") |}.

Lemma tessieRequest_remote_error_witness :
  has_token unavailable_world = true /\
  result (remote unavailable_world (trace unavailable_world)
            (request_for String_Z query_of lock_options (token_of unavailable_world)))
    = Resolved unavailable /\
  resp_ok unavailable = false /\
  fst (tessieRequest String_Z query_of lock_options unavailable_world) =
    Throw (Error "Tessie API error 503: service unavailable").
Proof.
  split; [reflexivity|]. split; [reflexivity|]. split; [reflexivity|].
  destruct (tessieRequest_remote_error String_Z query_of lock_options unavailable_world
              unavailable eq_refl eq_refl eq_refl) as (Hrun & _ & _).
  rewrite Hrun. reflexivity.
Defined.

(** The lock tool on an awake vehicle whose service answers the command
    with 503: the tool fails with that error after one status check and one
    POST. *)
Example lock_service_unavailable :
  fst (command_tool String_Z query_of lock vin0 None None unavailable_world) =
    Throw (Error "Tessie API error 503: service unavailable") /\
  map kind (trace (snd (command_tool String_Z query_of lock vin0 None None
                          unavailable_world)))
  = [Fetched GET "https://api.tessie.com/5YJ3E1EA7KF000001/status";
     Fetched POST "https://api.tessie.com/5YJ3E1EA7KF000001/command/lock"].
Proof. split; vm_compute; reflexivity. Qed.

Lemma tessieRequest_requires_token_witness :
  truthy (TESSIE_API_TOKEN (env unconfigured_world)) = false /\
  tessieRequest String_Z query_of lock_options unconfigured_world =
    (Throw TOKEN_REQUIRED, unconfigured_world).
Proof.
  split; [reflexivity|].
  exact (proj1 (tessieRequest_requires_token String_Z query_of lock_options
                  unconfigured_world eq_refl)).
Defined.

(** An empty token is no token. *)
Example empty_token_is_rejected :
  tessieRequest String_Z query_of lock_options (world (Some "") awake_service) =
    (Throw TOKEN_REQUIRED, world (Some "") awake_service).
Proof. reflexivity. Qed.

Definition drives_params : Params num :=
  [("from", Some (SNumber 1700000000)); ("to", None);
   ("tag", Some (SString "work")); ("limit", None);
   ("details", Some (SBoolean false))].

Definition drives_options : TessieRequestOptions num :=
  get_options ("/" ++ vin0 ++ "/drives") (Some drives_params).

Lemma tessieRequest_query_witness :
  has_token awake_world = true /\
  params drives_options = Some drives_params /\
  NoDup (map fst drives_params) /\
  query_of (BASE_URL ++ path drives_options) = [] /\
  exists req reply,
    trace (snd (tessieRequest String_Z query_of drives_options awake_world)) =
      [EvFetch req reply] /\
    entries "to" (searchParams (req_url req)) = [] /\
    entries "tag" (searchParams (req_url req)) = [("tag", "work")] /\
    searchParams (req_url req) =
      [("from", "1700000000"); ("tag", "work"); ("details", "false")].
Proof.
  assert (Hnd : NoDup (map fst drives_params)).
  { repeat constructor; cbn; intuition discriminate. }
  split; [reflexivity|]. split; [reflexivity|]. split; [exact Hnd|].
  split; [reflexivity|].
  destruct (tessieRequest_query String_Z query_of drives_options awake_world
              drives_params eq_refl eq_refl Hnd)
    as (req & reply & Htrace & Habsent & Hgiven & Hplain).
  exists req, reply. split; [exact Htrace|].
  split; [exact (Habsent "to" (or_intror (or_introl eq_refl)))|].
  split.
  - apply (Hgiven "tag" (SString "work")). cbn. tauto.
  - exact (proj1 (Hplain eq_refl)).
Defined.

(** A path with a query of its own, as a vehicle identifier with a [?] in
    it gives: the URL keeps that query.  [limit], which the caller left
    out, stays as the path has it; [tag], which the caller gave, is set to
    the caller's value. *)
Definition queried_options : TessieRequestOptions num :=
  get_options ("/" ++ "X?limit=7&tag=old" ++ "/drives") (Some drives_params).

Example path_query_is_kept :
  map (fun e => match e with
                | EvFetch req _ => searchParams (req_url req)
                | EvTimeout _ => []
                end)
      (trace (snd (tessieRequest String_Z query_of queried_options awake_world)))
  = [[("limit", "7"); ("tag", "work"); ("from", "1700000000");
      ("details", "false")]].
Proof. vm_compute. reflexivity. Qed.

(** *** VIN resolution *)

Definition with_default (default_vin : option string) : World num :=
  {| env := environment (Some "tok") default_vin; now := 0;
     remote := awake_service; lateness := fun _ _ => 0%N; trace := [] |}.

Example explicit_vin_wins :
  fst (VinSchema (Some "EXPLICIT") (with_default (Some "DEFAULT"))) =
    Normal "EXPLICIT".
Proof. reflexivity. Qed.

Example default_vin_is_used :
  fst (VinSchema None (with_default (Some "DEFAULT"))) = Normal "DEFAULT".
Proof. reflexivity. Qed.

Example empty_vin_falls_back :
  fst (VinSchema (Some "") (with_default (Some "DEFAULT"))) = Normal "DEFAULT".
Proof. reflexivity. Qed.

Example missing_vin_fails_before_any_request :
  vehicle_tool (fun vin => command_tool String_Z query_of lock vin None None) None
               (with_default None)
  = (Throw VIN_REQUIRED, with_default None).
Proof. reflexivity. Qed.

(** *** Read-only operations *)

Example get_location_asks_once :
  map kind (trace (snd (read_tool String_Z query_of (get_location vin0) slow_world)))
  = [Fetched GET "https://api.tessie.com/5YJ3E1EA7KF000001/location"].
Proof. vm_compute. reflexivity. Qed.

(** On the vehicle that never wakes, a read tool logs its own [GET] and
    nothing else. *)
Lemma read_operations_bypass_wake_gate_witness :
  has_token slow_world = true /\
  exists e,
    trace (snd (read_tool String_Z query_of (get_location vin0) slow_world)) =
      [e] /\
    is_fetch GET "https://api.tessie.com/5YJ3E1EA7KF000001/location" e = true.
Proof.
  split; [reflexivity|].
  destruct (proj1 (read_operations_bypass_wake_gate String_Z query_of)
              (get_location vin0) slow_world) as (_ & Hsent & _).
  exact (Hsent eq_refl).
Defined.

(** The location lookup answers 500: the other two slots keep their
    payloads and the call returns. *)
Example full_status_with_location_down :
  fst (get_full_status String_Z query_of vin0 location_down_world) =
    Normal (TextContent
      (JObject
         [("battery", JObject [("ok", JBoolean true)]);
          ("location",
           JObject [("error", JString "Tessie API error 500: internal error")]);
          ("state", JObject [("ok", JBoolean true)])])).
Proof. vm_compute. reflexivity. Qed.

(** The same run, read off the property of [get_full_status]: the reads of
    the battery and of the state succeed, the one of the location fails
    with 500, and each slot reports its own read. *)
Lemma get_full_status_settles_witness :
  has_token location_down_world = true /\
  exists e1 e2 e3 battery location state,
    fst (get_full_status String_Z query_of vin0 location_down_world) =
      Normal (TextContent (JObject [("battery", battery);
                                    ("location", location);
                                    ("state", state)])) /\
    trace (snd (get_full_status String_Z query_of vin0 location_down_world)) =
      [e1; e2; e3] /\
    event_outcome e1 = Normal (JObject [("ok", JBoolean true)]) /\
    event_outcome e2 = Throw (Error "Tessie API error 500: internal error") /\
    event_outcome e3 = Normal (JObject [("ok", JBoolean true)]) /\
    battery = JObject [("ok", JBoolean true)] /\
    location = error_descriptor "Tessie API error 500: internal error" /\
    state = JObject [("ok", JBoolean true)].
Proof.
  split; [reflexivity|].
  destruct (proj2 (get_full_status_settles String_Z query_of vin0
                     location_down_world) eq_refl)
    as (e1 & e2 & e3 & battery & location & state & w' & Hrun & Htr &
        _ & _ & _ & F1 & F2 & F3).
  exists e1, e2, e3, battery, location, state.
  assert (Hw : w' = snd (get_full_status String_Z query_of vin0
                           location_down_world)).
  { rewrite Hrun. reflexivity. }
  rewrite Hrun. cbn [fst snd]. split; [reflexivity|].
  rewrite Hw in Htr. vm_compute in Htr.
  injection Htr as <- <- <-.
  destruct F1 as [F1 _], F2 as [F2 _], F3 as [F3 _].
  vm_compute in F1, F2, F3.
  split; [rewrite Hw; vm_compute; reflexivity|].
  split; [reflexivity|]. split; [reflexivity|]. split; [reflexivity|].
  split; [exact F1|]. split; [exact F2|exact F3].
Defined.

(** *** Tools outside the gate *)

(** Tagging a drive is a single POST: no status check, no wake. *)
Example set_drive_tag_posts_directly :
  map kind (trace (snd (set_drive_tag String_Z query_of vin0 "12,13" "business"
                          slow_world)))
  = [Fetched POST "https://api.tessie.com/5YJ3E1EA7KF000001/drives/set_tag"].
Proof. vm_compute. reflexivity. Qed.

End Scenario.

(** * The rest of the server

    The request handlers and helper behaviour the properties above do not
    reach: the resource handlers, the shape of the requests, the remaining
    outcomes of [ensureAwake]. *)
Section Handlers.

Context {number : Type} (String_number : number -> string).
Context (URL_query : string -> list (string * string)).

Notation "x <- m ;; k" := (bind m (fun x => k))
  (at level 100, m at next level, right associativity).

(** ** Resources *)

(** An entry of the resource list. *)
Record Resource : Type := {
  uri : string;
  name : string;
  description : string;
  mimeType : string
}.

(** The [ListResourcesRequestSchema] handler; the result is the array under
    [resources]. *)
Definition ListResources : @M number (list Resource) :=
  defaultVin <- getDefaultVin ;;
  let resources :=
    [{| uri := "tessie://vehicles";
        name := "All Vehicles";
        description := "Fleet overview — all vehicles on the Tessie account";
        mimeType := "application/json" |}] in
  if truthy defaultVin then
    let vin := match defaultVin with Some v => v | None => "" end in
    ret (resources ++
         [{| uri := "tessie://" ++ vin ++ "/state";
             name := "Vehicle State";
             description := "Full live state for " ++ vin ++
                            " — charge, climate, drive, config";
             mimeType := "application/json" |};
          {| uri := "tessie://" ++ vin ++ "/status";
             name := "Vehicle Status";
             description := "Awake/asleep status for " ++ vin;
             mimeType := "application/json" |}])%list
  else ret resources.

(** Strings are read as UTF-8.  The line terminators a [.] of a regular
    expression refuses: LF, CR, U+2028 and U+2029 (E2 80 A8 and
    E2 80 A9). *)
Fixpoint has_line_terminator (s : string) : bool :=
  match s with
  | EmptyString => false
  | String ch rest =>
      match nat_of_ascii ch with
      | 10%nat | 13%nat => true
      | 226%nat =>
          match rest with
          | String b1 (String b2 _) =>
              ((nat_of_ascii b1 =? 128)%nat &&
               ((nat_of_ascii b2 =? 168)%nat || (nat_of_ascii b2 =? 169)%nat))
              || has_line_terminator rest
          | _ => has_line_terminator rest
          end
      | _ => has_line_terminator rest
      end
  end.

(** [s] without its prefix [p]. *)
Fixpoint strip_prefix (p s : string) : option string :=
  match p, s with
  | EmptyString, _ => Some s
  | String a p', String b s' =>
      if Ascii.eqb a b then strip_prefix p' s' else None
  | String _ _, EmptyString => None
  end.

(** [s] without its suffix [suffix]. *)
Fixpoint strip_suffix (suffix s : string) : option string :=
  if (s =? suffix)%string then Some EmptyString
  else match s with
       | EmptyString => None
       | String ch rest => option_map (String ch) (strip_suffix suffix rest)
       end.

(** The capture group of [uri.match(/^<prefix>(.+)<suffix>$/)], for literal
    [prefix] and [suffix]: the text between them, which must be non-empty
    and free of line terminators. *)
Definition capture (prefix suffix uri : string) : option string :=
  match strip_prefix prefix uri with
  | Some rest =>
      match strip_suffix suffix rest with
      | Some group =>
          if (group =? "")%string || has_line_terminator group
          then None else Some group
      | None => None
      end
  | None => None
  end.

(** The three tests of the [ReadResourceRequestSchema] handler, in its
    order. *)
Definition match_resource_uri (uri : string) : ResourceUri :=
  if (uri =? "tessie://vehicles")%string then uri_vehicles
  else match capture "tessie://" "/state" uri with
       | Some vin => uri_state vin
       | None =>
           match capture "tessie://" "/status" uri with
           | Some vin => uri_status vin
           | None => uri_unknown uri
           end
       end.

(** What the handler returns,
    [{ contents: [{ uri, mimeType, text: JSON.stringify(data, null, 2) }] }],
    kept as the [data] that is rendered. *)
Record ResourceContents : Type := {
  contents_uri : string;
  contents_mimeType : string;
  contents_data : Json number
}.

Definition ReadResourceRequest (uri : string) : @M number ResourceContents :=
  data <- ReadResource String_number URL_query (match_resource_uri uri) ;;
  ret {| contents_uri := uri; contents_mimeType := "application/json";
         contents_data := data |}.

(** *** Matching resource identifiers *)

Lemma length_append (a b : string) :
  String.length (a ++ b) = (String.length a + String.length b)%nat.
Proof. induction a as [|ch a IH]; cbn; [reflexivity|]. rewrite IH. reflexivity. Qed.

Lemma strip_prefix_sound (p : string) :
  forall s rest, strip_prefix p s = Some rest -> s = p ++ rest.
Proof.
  induction p as [|a p IH]; intros s rest H; cbn in H.
  - injection H as <-. reflexivity.
  - destruct s as [|b s]; [discriminate|].
    destruct (Ascii.eqb_spec a b) as [<-|]; [|discriminate].
    cbn. f_equal. apply IH. exact H.
Qed.

Lemma strip_prefix_app (p rest : string) : strip_prefix p (p ++ rest) = Some rest.
Proof.
  induction p as [|a p IH]; cbn; [reflexivity|].
  rewrite Ascii.eqb_refl. exact IH.
Qed.

Lemma strip_suffix_unfold (suffix s : string) :
  strip_suffix suffix s =
    if (s =? suffix)%string then Some EmptyString
    else match s with
         | EmptyString => None
         | String ch rest => option_map (String ch) (strip_suffix suffix rest)
         end.
Proof. destruct s; reflexivity. Qed.

Lemma strip_suffix_sound (suffix : string) :
  forall s group, strip_suffix suffix s = Some group -> s = group ++ suffix.
Proof.
  induction s as [|ch s IH]; intros group H; rewrite strip_suffix_unfold in H.
  - destruct (String.eqb_spec "" suffix) as [<-|]; [|discriminate].
    injection H as <-. reflexivity.
  - destruct (String.eqb_spec (String ch s) suffix) as [<-|].
    + injection H as <-. reflexivity.
    + destruct (strip_suffix suffix s) as [g|]; [|discriminate].
      injection H as <-. cbn. f_equal. apply IH. reflexivity.
Qed.

Lemma strip_suffix_app (suffix group : string) :
  strip_suffix suffix (group ++ suffix) = Some group.
Proof.
  induction group as [|ch group IH]; rewrite strip_suffix_unfold.
  - cbn. rewrite String.eqb_refl. reflexivity.
  - destruct (String.eqb_spec (String ch group ++ suffix) suffix) as [E|_].
    + apply (f_equal String.length) in E. rewrite length_append in E.
      cbn in E. lia.
    + cbn [append]. rewrite IH. reflexivity.
Qed.

Lemma capture_sound prefix suffix u group :
  capture prefix suffix u = Some group ->
  u = prefix ++ group ++ suffix /\ group <> "" /\
  has_line_terminator group = false.
Proof.
  unfold capture. intros H.
  destruct (strip_prefix prefix u) as [rest|] eqn:Hp; [|discriminate].
  destruct (strip_suffix suffix rest) as [g|] eqn:Hs; [|discriminate].
  destruct (String.eqb_spec g "") as [->|Hne]; [discriminate|].
  cbn [orb] in H.
  destruct (has_line_terminator g) eqn:Hlt; [discriminate|].
  injection H as <-.
  apply strip_prefix_sound in Hp. apply strip_suffix_sound in Hs.
  subst. repeat split; auto.
Qed.

Lemma capture_app prefix suffix group :
  group <> "" -> has_line_terminator group = false ->
  capture prefix suffix (prefix ++ group ++ suffix) = Some group.
Proof.
  intros Hne Hlt. unfold capture.
  rewrite strip_prefix_app, strip_suffix_app, Hlt.
  destruct (String.eqb_spec group ""); [contradiction|reflexivity].
Qed.

(** A text that ends in [/status] does not end in [/state]. *)
Lemma status_is_not_state (group : string) :
  strip_suffix "/state" (group ++ "/status") = None.
Proof.
  induction group as [|ch group IH]; [reflexivity|].
  rewrite strip_suffix_unfold.
  destruct (String.eqb_spec (String ch group ++ "/status") "/state") as [E|_].
  - apply (f_equal String.length) in E. rewrite length_append in E.
    cbn in E. lia.
  - cbn [append]. rewrite IH. reflexivity.
Qed.

Lemma state_uri_matches vin :
  vin <> "" -> has_line_terminator vin = false ->
  match_resource_uri ("tessie://" ++ vin ++ "/state") = uri_state vin.
Proof.
  intros Hne Hlt. unfold match_resource_uri.
  destruct (String.eqb_spec ("tessie://" ++ vin ++ "/state") "tessie://vehicles")
    as [E|_].
  - exfalso. cbn in E. injection E as E.
    pose proof (strip_suffix_app "/state" vin) as H. rewrite E in H.
    discriminate H.
  - rewrite capture_app by assumption. reflexivity.
Qed.

Lemma status_uri_matches vin :
  vin <> "" -> has_line_terminator vin = false ->
  match_resource_uri ("tessie://" ++ vin ++ "/status") = uri_status vin.
Proof.
  intros Hne Hlt. unfold match_resource_uri.
  destruct (String.eqb_spec ("tessie://" ++ vin ++ "/status") "tessie://vehicles")
    as [E|_].
  - exfalso. cbn in E. injection E as E.
    pose proof (strip_suffix_app "/status" vin) as H. rewrite E in H.
    discriminate H.
  - assert (Hno : capture "tessie://" "/state" ("tessie://" ++ vin ++ "/status")
                  = None).
    { unfold capture. rewrite strip_prefix_app, status_is_not_state.
      reflexivity. }
    rewrite Hno, capture_app by assumption. reflexivity.
Qed.

(** X1.  [ListResources] never fails and leaves the world alone.  It lists
    the fleet resource alone when [TESSIE_DEFAULT_VIN] is undefined or
    empty, and the fleet resource followed by the state and status
    resources of the default vehicle otherwise.  Unless the default VIN
    holds a line terminator, every listed identifier is one the read
    handler recognises, as the resource it was listed for. *)
Theorem ListResources_round_trip (w : World number) :
  exists rs,
    ListResources w = (Normal rs, w) /\
    (truthy (TESSIE_DEFAULT_VIN (env w)) = false ->
       map uri rs = ["tessie://vehicles"]) /\
    (forall d, TESSIE_DEFAULT_VIN (env w) = Some d -> d <> "" ->
       map uri rs = ["tessie://vehicles"; "tessie://" ++ d ++ "/state";
                     "tessie://" ++ d ++ "/status"] /\
       (has_line_terminator d = false ->
          map (fun r => match_resource_uri (uri r)) rs =
            [uri_vehicles; uri_state d; uri_status d])).
Proof.
  assert (Hg : @getDefaultVin number w =
               (Normal (TESSIE_DEFAULT_VIN (env w)), w)) by reflexivity.
  unfold ListResources. unfold bind at 1. rewrite Hg. unfold ret.
  destruct (TESSIE_DEFAULT_VIN (env w)) as [d|] eqn:Hd.
  - destruct (truthy (Some d)) eqn:Ht.
    + eexists. split; [reflexivity|]. split; [discriminate|].
      intros d' [= <-] Hne. split; [reflexivity|]. intros Hlt.
      cbn [map uri app].
      rewrite state_uri_matches, status_uri_matches by assumption.
      reflexivity.
    + eexists. split; [reflexivity|]. split; [reflexivity|].
      intros d' [= <-] Hne. rewrite (truthy_nonempty d Hne) in Ht.
      discriminate.
  - eexists. split; [reflexivity|]. split; [reflexivity|]. discriminate.
Qed.

(** X2.  Reading [tessie://{vin}/state] is the read of [/{vin}/state] with
    [use_cache=true], reading [tessie://{vin}/status] the read of
    [/{vin}/status] without parameters, for every non-empty [vin] without
    line terminators (slashes included: the capture is everything between
    the scheme and the last segment); reading [tessie://vehicles] is the
    read of [/vehicles]. *)
Theorem ReadResource_dispatch (vin : string) :
  vin <> "" -> has_line_terminator vin = false ->
  ReadResource String_number URL_query (match_resource_uri ("tessie://" ++ vin ++ "/state"))
    = get String_number URL_query ("/" ++ vin ++ "/state")
          (Some [("use_cache", Some (SBoolean true))]) /\
  ReadResource String_number URL_query (match_resource_uri ("tessie://" ++ vin ++ "/status"))
    = get String_number URL_query ("/" ++ vin ++ "/status") None /\
  ReadResource String_number URL_query (match_resource_uri "tessie://vehicles")
    = get String_number URL_query "/vehicles" None.
Proof.
  intros Hne Hlt.
  rewrite state_uri_matches, status_uri_matches by assumption.
  repeat split.
Qed.

(** X3.  An identifier that is neither [tessie://vehicles] nor of the form
    [tessie://{vin}/state] or [tessie://{vin}/status] (with [vin] non-empty
    and free of line terminators) is refused with the unknown-resource
    error, and nothing is requested. *)
Theorem unknown_resource_is_refused (u : string) (w : World number) :
  u <> "tessie://vehicles" ->
  (forall vin, vin <> "" -> has_line_terminator vin = false ->
     u <> "tessie://" ++ vin ++ "/state" /\
     u <> "tessie://" ++ vin ++ "/status") ->
  ReadResourceRequest u w = (Throw (Error ("Unknown resource URI: " ++ u)), w).
Proof.
  intros Hv Hshape.
  assert (Hm : match_resource_uri u = uri_unknown u).
  { unfold match_resource_uri.
    destruct (String.eqb_spec u "tessie://vehicles"); [contradiction|].
    destruct (capture "tessie://" "/state" u) as [vin|] eqn:Hs.
    { apply capture_sound in Hs as (E & Hne & Hlt).
      destruct (Hshape vin Hne Hlt) as [H _]. contradiction. }
    destruct (capture "tessie://" "/status" u) as [vin|] eqn:Ht.
    { apply capture_sound in Ht as (E & Hne & Hlt).
      destruct (Hshape vin Hne Hlt) as [_ H]. contradiction. }
    reflexivity. }
  unfold ReadResourceRequest, bind. rewrite Hm. reflexivity.
Qed.

(** ** Every outcome of [ensureAwake] *)

(** The requests among the logged events. *)
Definition is_request (e : Event number) : bool :=
  match e with
  | EvFetch _ _ => true
  | EvTimeout _ => false
  end.

Definition requests (evs : list (Event number)) : list (Event number) :=
  filter is_request evs.

(** No status check of [vin] among [evs] was answered "awake". *)
Definition none_awake (vin : string) (evs : list (Event number)) : Prop :=
  Forall (fun e => is_status_check vin e = true -> reports_awake e = false) evs.

Lemma check_outcome_throw_quiet (reply : Reply number) (req : Request number) e :
  check_outcome reply = Throw e -> reports_awake (EvFetch req reply) = false.
Proof.
  intros H. unfold reports_awake.
  rewrite (check_outcome_throw reply req e H). reflexivity.
Qed.

(** The poll loop, accounted for: [k] passes through the body log [k]
    waits and [k] status checks; a pass is only entered before the
    deadline; the loop is left at the first check that says "awake" or
    fails. *)
Lemma wake_poll_account vin deadline bound :
  forall w, has_token w = true ->
    exists polls k,
      trace (snd (wake_poll String_number URL_query bound vin deadline w)) =
        (trace w ++ polls)%list /\
      length polls = (2 * k)%nat /\
      length (requests polls) = k /\
      (k = O \/ WAKE_POLL_INTERVAL_MS * (Z.of_nat k - 1) < deadline - now w) /\
      now w <= now (snd (wake_poll String_number URL_query bound vin deadline w)) /\
      match fst (wake_poll String_number URL_query bound vin deadline w) with
      | Normal true =>
          exists pre check, polls = (pre ++ [check])%list /\
                            Forall (fun e => reports_awake e = false) pre
      | Normal false | Throw _ =>
          Forall (fun e => reports_awake e = false) polls
      | Unfinished => True
      end.
Proof.
  induction bound as [|bound IH]; intros w Htok.
  - exists [], O. cbn. rewrite app_nil_r. repeat split; auto. lia.
  - rewrite wake_poll_step.
    destruct (now w <? deadline) eqn:Hlt.
    2:{ exists [], O. cbn [fst snd]. rewrite app_nil_r.
        repeat split; auto. lia. }
    apply Z.ltb_lt in Hlt.
    assert (Htok1 : has_token (waited w) = true) by exact Htok.
    rewrite (isVehicleAwake_run String_number URL_query vin (waited w) Htok1).
    set (w1 := waited w) in *.
    set (reply := remote w1 (trace w1) (status_check String_number URL_query vin w1)).
    set (ev := EvFetch (status_check String_number URL_query vin w1) reply).
    set (w2 := checked String_number URL_query vin w1).
    assert (Htr : trace w2 =
                  (trace w ++ [EvTimeout WAKE_POLL_INTERVAL_MS; ev])%list).
    { unfold w2. rewrite checked_last_event. unfold w1, waited, log.
      cbn [trace]. rewrite <- app_assoc. reflexivity. }
    assert (Hnow : now w + 3000 <= now w2).
    { unfold w2, checked. rewrite answered_now. unfold w1, waited, log.
      cbn [now]. unfold WAKE_POLL_INTERVAL_MS. lia. }
    assert (Hquiet : reports_awake (EvTimeout (number:=number)
                                      WAKE_POLL_INTERVAL_MS) = false)
      by reflexivity.
    assert (Hone : WAKE_POLL_INTERVAL_MS * (Z.of_nat 1 - 1) < deadline - now w)
      by (unfold WAKE_POLL_INTERVAL_MS; lia).
    destruct (check_outcome reply) as [[|]|e|] eqn:Hout.
    + exists [EvTimeout WAKE_POLL_INTERVAL_MS; ev], 1%nat. cbn [fst snd].
      split; [exact Htr|]. split; [reflexivity|]. split; [reflexivity|].
      split; [right; exact Hone|]. split; [lia|].
      exists [EvTimeout WAKE_POLL_INTERVAL_MS], ev.
      split; [reflexivity|]. constructor; [exact Hquiet|constructor].
    + assert (Htok2 : has_token w2 = true) by exact Htok.
      destruct (IH w2 Htok2)
        as (polls & k & Htrace & Hlen & Hreq & Hk & Hmono & Hcase).
      exists (EvTimeout WAKE_POLL_INTERVAL_MS :: ev :: polls), (S k).
      split. { rewrite Htrace, Htr, <- app_assoc. reflexivity. }
      split. { cbn [length]. rewrite Hlen. lia. }
      split. { unfold requests in *. unfold ev. cbn [filter is_request length].
               f_equal. exact Hreq. }
      split. { right. unfold WAKE_POLL_INTERVAL_MS in *.
               destruct Hk as [->|Hk]; lia. }
      split. { lia. }
      pose proof (check_outcome_asleep reply (status_check String_number URL_query vin w1)
                    Hout) as Hev.
      fold ev in Hev.
      destruct (fst (wake_poll String_number URL_query bound vin deadline w2))
        as [[|]|e|].
      * destruct Hcase as (pre & chk & -> & Hpre).
        exists (EvTimeout WAKE_POLL_INTERVAL_MS :: ev :: pre), chk.
        split; [reflexivity|]. repeat constructor; assumption.
      * repeat constructor; assumption.
      * repeat constructor; assumption.
      * exact I.
    + exists [EvTimeout WAKE_POLL_INTERVAL_MS; ev], 1%nat. cbn [fst snd].
      split; [exact Htr|]. split; [reflexivity|]. split; [reflexivity|].
      split; [right; exact Hone|]. split; [lia|].
      constructor; [exact Hquiet|]. constructor; [|constructor].
      apply (check_outcome_throw_quiet _ _ e). exact Hout.
    + exfalso. exact (check_outcome_finished _ Hout).
Qed.

Lemma wake_command_is_no_check vin (e : Event number) :
  is_wake_command vin e = true -> is_status_check vin e = false.
Proof.
  intros Hw. destruct (is_status_check vin e) eqn:Hc; [|reflexivity].
  pose proof (is_fetch_GET_not_post _ _ Hc) as H1.
  pose proof (is_fetch_POST_is_post _ _ Hw) as H2. congruence.
Qed.

Lemma quiet_none_awake vin (evs : list (Event number)) :
  Forall (fun e => reports_awake e = false) evs -> none_awake vin evs.
Proof.
  unfold none_awake. apply Forall_impl. intros e H _. exact H.
Qed.

(** A run of [ensureAwake], accounted for. *)
Lemma ensureAwake_account vin w :
  exists evs,
    trace (snd (ensureAwake String_number URL_query vin w)) = (trace w ++ evs)%list /\
    (length (requests evs) <= 32)%nat /\
    (length evs <= 62)%nat /\
    now w <= now (snd (ensureAwake String_number URL_query vin w)) /\
    match fst (ensureAwake String_number URL_query vin w) with
    | Normal _ =>
        exists pre check, evs = (pre ++ [check])%list /\
                          is_status_check vin check = true /\
                          reports_awake check = true /\
                          none_awake vin pre
    | Throw _ => none_awake vin evs
    | Unfinished => False
    end.
Proof.
  destruct (has_token w) eqn:Htok.
  2:{ rewrite ensureAwake_no_token by exact Htok.
      exists []. cbn. rewrite app_nil_r. repeat split; try lia. constructor. }
  rewrite ensureAwake_run by exact Htok.
  set (reply := remote w (trace w) (status_check String_number URL_query vin w)).
  set (ev := EvFetch (status_check String_number URL_query vin w) reply).
  assert (Hev : is_status_check vin ev = true)
    by apply status_request_is_check.
  assert (Hnow1 : now w <= now (checked String_number URL_query vin w)).
  { unfold checked. rewrite answered_now. lia. }
  destruct (check_outcome reply) as [[|]|e|] eqn:Hout.
  - exists [ev]. cbn [fst snd]. split; [reflexivity|].
    split; [cbn; lia|]. split; [cbn; lia|]. split; [exact Hnow1|].
    exists [], ev. split; [reflexivity|]. split; [exact Hev|].
    split; [apply check_outcome_awake; exact Hout|constructor].
  - set (wreply := remote (checked String_number URL_query vin w)
                          (trace (checked String_number URL_query vin w))
                          (wake_command String_number URL_query vin w)).
    set (wev := EvFetch (wake_command String_number URL_query vin w) wreply).
    set (w0 := polling_began String_number URL_query vin w).
    assert (Hwev : is_wake_command vin wev = true)
      by apply wake_request_is_command.
    assert (Htr : trace w0 = (trace w ++ [ev; wev])%list).
    { unfold w0, polling_began. rewrite answered_trace, checked_last_event.
      rewrite <- app_assoc. reflexivity. }
    assert (Hnow2 : now w <= now w0).
    { unfold w0, polling_began. rewrite answered_now. lia. }
    assert (Hhead : forall rest, none_awake vin rest ->
                      none_awake vin (ev :: wev :: rest)).
    { intros rest Hrest. constructor.
      - intros _. apply check_outcome_asleep. exact Hout.
      - constructor; [|exact Hrest].
        rewrite (wake_command_is_no_check vin wev Hwev). discriminate. }
    destruct (settle_reply wreply) as [data|e|] eqn:Hw.
    + assert (Htok0 : has_token w0 = true) by exact Htok.
      pose proof (wake_poll_post String_number URL_query vin (now w0 + WAKE_TIMEOUT_MS)
                    WAKE_POLL_BOUND w0 Htok0)
        as (polls' & _ & _ & Htrace' & _ & Hcase').
      pose proof (wake_poll_account vin (now w0 + WAKE_TIMEOUT_MS)
                    WAKE_POLL_BOUND w0 Htok0)
        as (polls & k & Htrace & Hlen & Hreq & Hk & Hmono & Hcase).
      assert (Hsame : polls' = polls).
      { rewrite Htrace in Htrace'. apply app_inv_head in Htrace'.
        symmetry. exact Htrace'. }
      subst polls'.
      assert (Hk30 : (k <= 30)%nat).
      { destruct Hk as [->|Hk]; [lia|].
        unfold WAKE_POLL_INTERVAL_MS, WAKE_TIMEOUT_MS in Hk. lia. }
      destruct (wake_poll String_number URL_query WAKE_POLL_BOUND vin
                  (now w0 + WAKE_TIMEOUT_MS) w0) as [out w'].
      cbn [fst snd] in *.
      assert (Hall : trace w' = (trace w ++ ev :: wev :: polls)%list).
      { rewrite Htrace, Htr, <- app_assoc. reflexivity. }
      assert (Hcount : (length (requests (ev :: wev :: polls)) <= 32)%nat).
      { unfold requests in *. unfold ev, wev. cbn [filter is_request length].
        rewrite Hreq. lia. }
      assert (Hsize : (length (ev :: wev :: polls) <= 62)%nat).
      { cbn [length]. rewrite Hlen. lia. }
      destruct out as [[|]|e|]; exists (ev :: wev :: polls); cbn [fst snd];
        (split; [exact Hall|]); (split; [exact Hcount|]);
        (split; [exact Hsize|]); (split; [lia|]).
      * destruct Hcase' as (pre' & chk' & Hsplit' & Hchk & Haw).
        destruct Hcase as (pre & chk & Hsplit & Hpre).
        rewrite Hsplit in Hsplit'. apply app_inj_tail in Hsplit' as [<- <-].
        exists (ev :: wev :: pre), chk. rewrite Hsplit.
        split; [reflexivity|]. split; [exact Hchk|]. split; [exact Haw|].
        apply Hhead. apply quiet_none_awake. exact Hpre.
      * apply Hhead. apply quiet_none_awake. exact Hcase.
      * apply Hhead. apply quiet_none_awake. exact Hcase.
      * destruct Hcase' as [Hc|Hc]; [|discriminate].
        rewrite WAKE_POLL_BOUND_enough in Hc. lia.
    + exists [ev; wev]. cbn [fst snd]. split; [exact Htr|].
      split; [cbn; lia|]. split; [cbn; lia|]. split; [exact Hnow2|].
      apply Hhead. constructor.
    + exfalso. exact (settle_reply_finished _ Hw).
  - exists [ev]. cbn [fst snd]. split; [reflexivity|].
    split; [cbn; lia|]. split; [cbn; lia|]. split; [exact Hnow1|].
    constructor; [|constructor]. intros _.
    apply (check_outcome_throw_quiet _ _ e). exact Hout.
  - exfalso. exact (check_outcome_finished _ Hout).
Qed.

(** X4.  Whatever the service answers, a run of [ensureAwake] ends, by
    returning or by throwing, after at most 32 requests (the first status
    check, the wake command and at most 30 re-checks) and at most 62 logged
    effects, the waits included. *)
Theorem ensureAwake_ends_within_bounds (vin : string) (w : World number) :
  fst (ensureAwake String_number URL_query vin w) <> Unfinished /\
  exists evs,
    trace (snd (ensureAwake String_number URL_query vin w)) = (trace w ++ evs)%list /\
    (length (requests evs) <= 32)%nat /\
    (length evs <= 62)%nat.
Proof.
  destruct (ensureAwake_account vin w) as (evs & Htr & Hreq & Hlen & _ & Hcase).
  split.
  - intros E. rewrite E in Hcase. exact Hcase.
  - exists evs. repeat split; assumption.
Qed.

Lemma last_unique {A} (P : A -> Prop) (l : list A) (x : A) :
  Forall (fun a => ~ P a) l ->
  forall pre e post, (l ++ [x])%list = (pre ++ e :: post)%list -> P e ->
    post = [].
Proof.
  induction l as [|a l IH]; intros Hall pre e post Heq He.
  - destruct pre as [|b pre]; cbn in Heq.
    + injection Heq as _ <-. reflexivity.
    + injection Heq as _ Heq. destruct pre; discriminate.
  - inversion Hall as [|? ? Ha Hl]; subst.
    destruct pre as [|b pre]; cbn in Heq.
    + injection Heq as <- _. contradiction.
    + injection Heq as _ Heq. exact (IH Hl pre e post Heq He).
Qed.

(** X5.  [ensureAwake] returns exactly when the last thing it did was a
    status check that the service answered "awake"; and in no run is
    anything done after such a check: the first "awake" ends the run. *)
Theorem ensureAwake_returns_iff_awake (vin : string) (w : World number) :
  exists evs,
    trace (snd (ensureAwake String_number URL_query vin w)) = (trace w ++ evs)%list /\
    (fst (ensureAwake String_number URL_query vin w) = Normal tt <->
     exists pre check, evs = (pre ++ [check])%list /\
                       is_status_check vin check = true /\
                       reports_awake check = true) /\
    (forall pre e post,
        evs = (pre ++ e :: post)%list ->
        is_status_check vin e = true -> reports_awake e = true ->
        post = []).
Proof.
  destruct (ensureAwake_account vin w) as (evs & Htr & _ & _ & _ & Hcase).
  exists evs. split; [exact Htr|].
  assert (Hnone : forall l : list (Event number), none_awake vin l ->
            Forall (fun a => ~ (is_status_check vin a = true /\
                                reports_awake a = true)) l).
  { intros l. apply Forall_impl. intros a Ha [H1 H2].
    rewrite (Ha H1) in H2. discriminate. }
  destruct (fst (ensureAwake String_number URL_query vin w)) as [[]|e|].
  - destruct Hcase as (pre & check & -> & Hchk & Haw & Hpre).
    split.
    + split; [intros _; exists pre, check; auto|reflexivity].
    + intros pre0 e0 post0 Heq H1 H2.
      exact (last_unique _ pre check (Hnone pre Hpre) pre0 e0 post0 Heq
               (conj H1 H2)).
  - split.
    + split; [discriminate|].
      intros (pre & check & -> & Hchk & Haw). exfalso.
      apply Forall_app in Hcase as [_ Hlast].
      inversion Hlast as [|? ? Hc _]; subst.
      rewrite (Hc Hchk) in Haw. discriminate.
    + intros pre0 e0 post0 -> H1 H2. exfalso.
      apply Forall_app in Hcase as [_ Hrest].
      inversion Hrest as [|? ? Hc _]; subst.
      rewrite (Hc H1) in H2. discriminate.
  - contradiction.
Qed.

(** The loop never runs long past its deadline, however it is left: with
    timers at most [T] ms late and status checks of at most [L] ms, it ends
    before the deadline plus one wait plus [T] plus [L] (or at once, when
    entered after the deadline). *)
Lemma wake_poll_bounded_wait vin deadline T L bound :
  forall w,
    has_token w = true ->
    (forall tr ms, Z.of_N (lateness w tr ms) <= T) ->
    (forall tr,
        Z.of_N (duration (remote w tr
                            (status_check String_number URL_query vin w)))
        <= L) ->
    now (snd (wake_poll String_number URL_query bound vin deadline w))
    < Z.max (now w + 1) (deadline + WAKE_POLL_INTERVAL_MS + T + L).
Proof.
  induction bound as [|bound IH]; intros w Htok Hlate Hdur.
  - cbn. lia.
  - rewrite wake_poll_step.
    destruct (now w <? deadline) eqn:Hlt; [|cbn [snd]; lia].
    apply Z.ltb_lt in Hlt.
    assert (Htok1 : has_token (waited w) = true) by exact Htok.
    rewrite (isVehicleAwake_run String_number URL_query vin (waited w) Htok1).
    change (remote (waited w)) with (remote w).
    change (status_check String_number URL_query vin (waited w))
      with (status_check String_number URL_query vin w).
    specialize (IH (checked String_number URL_query vin (waited w))
                   Htok Hlate Hdur).
    assert (Hnow : now (checked String_number URL_query vin (waited w)) =
                   now w +
                   (WAKE_POLL_INTERVAL_MS +
                    Z.of_N (lateness w (trace w) WAKE_POLL_INTERVAL_MS)) +
                   Z.of_N (duration
                             (remote w (trace (waited w))
                                (status_check String_number URL_query vin w))))
      by reflexivity.
    pose proof (Hdur (trace (waited w))) as Hd.
    pose proof (Hlate (trace w) WAKE_POLL_INTERVAL_MS) as Hl.
    destruct (check_outcome _) as [[|]|e|]; cbn [snd]; lia.
Qed.

(** X6.  The wait of [ensureAwake] is bounded whatever the outcome: when no
    timer fires more than [T] ms late and no exchange with the service takes
    longer than [L] ms, a run ends less than 90 s plus one poll interval
    plus [T] plus three times [L] after it began; and the clock it leaves is
    never behind the one it found. *)
Theorem ensureAwake_bounded_wait (vin : string) (w : World number) (T L : Z) :
  (forall tr ms, Z.of_N (lateness w tr ms) <= T) ->
  (forall tr req, Z.of_N (duration (remote w tr req)) <= L) ->
  now w <= now (snd (ensureAwake String_number URL_query vin w)) /\
  now (snd (ensureAwake String_number URL_query vin w))
  < now w + WAKE_TIMEOUT_MS + WAKE_POLL_INTERVAL_MS + T + 3 * L.
Proof.
  intros Hlate Hdur.
  destruct (ensureAwake_account vin w) as (_ & _ & _ & _ & Hmono & _).
  split; [exact Hmono|]. clear Hmono.
  assert (HL : 0 <= L).
  { pose proof (Hdur [] (status_check String_number URL_query vin w)). lia. }
  assert (HT : 0 <= T).
  { pose proof (Hlate [] 0). lia. }
  destruct (has_token w) eqn:Htok.
  2:{ rewrite ensureAwake_no_token by exact Htok. cbn [snd].
      unfold WAKE_TIMEOUT_MS, WAKE_POLL_INTERVAL_MS. lia. }
  rewrite ensureAwake_run by exact Htok.
  assert (H1 : now (checked String_number URL_query vin w) <= now w + L).
  { unfold checked. rewrite answered_now.
    pose proof (Hdur (trace w) (status_check String_number URL_query vin w)).
    lia. }
  assert (H2 : now (polling_began String_number URL_query vin w)
               <= now w + 2 * L).
  { unfold polling_began. rewrite answered_now.
    pose proof (Hdur (trace (checked String_number URL_query vin w))
                  (wake_command String_number URL_query vin w)) as Hd.
    change (remote (checked String_number URL_query vin w)) with (remote w).
    lia. }
  assert (Htok0 :
            has_token (polling_began String_number URL_query vin w) = true)
    by exact Htok.
  pose proof (wake_poll_bounded_wait vin
                (now (polling_began String_number URL_query vin w)
                 + WAKE_TIMEOUT_MS) T L
                WAKE_POLL_BOUND (polling_began String_number URL_query vin w)
                Htok0 Hlate (fun tr => Hdur tr _)) as Hpoll.
  unfold WAKE_TIMEOUT_MS, WAKE_POLL_INTERVAL_MS in *.
  destruct (check_outcome _) as [[|]|e|]; cbn [snd]; try lia.
  destruct (settle_reply _) as [data|e|]; cbn [snd]; try lia.
  destruct (wake_poll _ _ _ _ _) as [[[|]|e|] w']; cbn [snd] in *; lia.
Qed.

(** X7.  A failed exchange ends [ensureAwake] on the spot, with the error
    of that exchange.  When the first status check fails, no wake command
    is sent.  When the wake command fails (its answer is not ignored), the
    run ends after these two requests: no wait, no re-check. *)
Theorem ensureAwake_aborts_on_failure (vin : string) (w : World number)
  (e : JsError) :
  has_token w = true ->
  (settle_reply (remote w (trace w) (status_check String_number URL_query vin w))
     = Throw e ->
   exists check,
     ensureAwake String_number URL_query vin w = (Throw e, checked String_number URL_query vin w) /\
     trace (checked String_number URL_query vin w) = (trace w ++ [check])%list /\
     is_status_check vin check = true) /\
  (check_outcome (remote w (trace w) (status_check String_number URL_query vin w))
     = Normal false ->
   settle_reply (remote w (trace (checked String_number URL_query vin w))
                   (wake_command String_number URL_query vin w)) = Throw e ->
   exists check wake,
     ensureAwake String_number URL_query vin w
       = (Throw e, polling_began String_number URL_query vin w) /\
     trace (polling_began String_number URL_query vin w)
       = (trace w ++ [check; wake])%list /\
     is_status_check vin check = true /\
     is_wake_command vin wake = true).
Proof.
  intros Htok. split.
  - intros Hfail. eexists. split; [|split].
    + rewrite ensureAwake_run by exact Htok.
      unfold check_outcome. rewrite Hfail. reflexivity.
    + apply checked_last_event.
    + apply status_request_is_check.
  - intros Hasleep Hfail. do 2 eexists. split; [|split; [|split]].
    + rewrite ensureAwake_run by exact Htok. rewrite Hasleep.
      change (remote (checked String_number URL_query vin w)) with (remote w).
      rewrite Hfail. reflexivity.
    + unfold polling_began. rewrite answered_trace, checked_last_event.
      rewrite <- app_assoc. reflexivity.
    + apply status_request_is_check.
    + apply wake_request_is_command.
Qed.

Lemma existsb_false_filter {A} (p : A -> bool) (l : list A) :
  existsb p l = false -> filter p l = [].
Proof.
  induction l as [|a l IH]; [reflexivity|]. cbn.
  destruct (p a); [discriminate|]. exact IH.
Qed.

Lemma wake_trace_posts vin (evs : list (Event number)) :
  is_wake_trace vin evs = true ->
  filter is_post evs = [] \/
  exists wake, filter is_post evs = [wake] /\ is_wake_command vin wake = true.
Proof.
  destruct evs as [|check [|wake polls]]; cbn [is_wake_trace]; intros H.
  - left. reflexivity.
  - rewrite andb_true_r in H. left. cbn [filter].
    rewrite (is_fetch_GET_not_post _ _ H). reflexivity.
  - apply andb_prop in H as [Hc H]. apply andb_prop in H as [Hw Hp].
    right. exists wake. split; [|exact Hw]. cbn [filter].
    rewrite (is_fetch_GET_not_post _ _ Hc), (is_fetch_POST_is_post _ _ Hw).
    rewrite (existsb_false_filter _ _ (poll_trace_no_post vin polls Hp)).
    reflexivity.
Qed.

(** X8.  [wake_vehicle] answers [{ status: "awake" }] exactly when
    [ensureAwake] returned, and fails with its error otherwise, in the
    world [ensureAwake] left.  The only POST it can send is the wake
    command, at most once. *)
Theorem wake_vehicle_answer (vin : string) (w : World number) :
  (forall w1, ensureAwake String_number URL_query vin w = (Normal tt, w1) ->
     wake_vehicle String_number URL_query vin w =
       (Normal (TextContent (JObject [("status", JString "awake")])), w1)) /\
  (forall e w1, ensureAwake String_number URL_query vin w = (Throw e, w1) ->
     wake_vehicle String_number URL_query vin w = (Throw e, w1)) /\
  exists evs,
    trace (snd (wake_vehicle String_number URL_query vin w)) = (trace w ++ evs)%list /\
    (filter is_post evs = [] \/
     exists wake, filter is_post evs = [wake] /\
                  is_wake_command vin wake = true).
Proof.
  split; [|split].
  - intros w1 H. unfold wake_vehicle, bind. rewrite H. reflexivity.
  - intros e w1 H. unfold wake_vehicle, bind. rewrite H. reflexivity.
  - destruct (ensureAwake_post String_number URL_query vin w)
      as (evs & _ & _ & Htr & Hshape & _).
    exists evs. split; [|apply (wake_trace_posts vin); exact Hshape].
    unfold wake_vehicle, bind.
    destruct (ensureAwake String_number URL_query vin w) as [[[]|e|] w1]; exact Htr.
Qed.

(** X9.  A VIN that [VinSchema] lets through is never empty, and it is the
    argument or the configured default; resolving it does not touch the
    world. *)
Theorem VinSchema_yields_nonempty (val : option string) (w w' : World number)
  (v : string) :
  VinSchema val w = (Normal v, w') ->
  v <> "" /\ w' = w /\
  (val = Some v \/ TESSIE_DEFAULT_VIN (env w) = Some v).
Proof.
  assert (Hne : forall s, truthy (Some s) = true -> s <> "").
  { intros s H ->. discriminate H. }
  destruct (truthy val) eqn:Hval.
  - destruct val as [s|]; [|discriminate].
    rewrite (VinSchema_explicit s w (Hne s Hval)).
    intros [= <- <-]. repeat split; auto.
  - rewrite (VinSchema_falsy val w Hval).
    destruct (truthy (TESSIE_DEFAULT_VIN (env w))) eqn:Hd; [|discriminate].
    destruct (TESSIE_DEFAULT_VIN (env w)) as [d|]; [|discriminate].
    intros [= <- <-]. repeat split; auto.
Qed.

(** ** The transport client, continued *)

(** Whether [tessieRequest] attaches the body: only to a POST. *)
Definition sends_body (o : TessieRequestOptions number) : bool :=
  match body o, method o with
  | Some _, Some POST => true
  | _, _ => false
  end.

(** X10.  The request [tessieRequest] sends goes to [BASE_URL] followed by
    the path, with the method asked for ([GET] when none is), the token as
    bearer authorization and [Accept: application/json].  The JSON content
    type and the body are attached to a POST that was given a body, and to
    nothing else: a body given with a GET is dropped. *)
Theorem tessieRequest_request_shape (o : TessieRequestOptions number)
  (w : World number) :
  has_token w = true ->
  exists req reply,
    trace (snd (tessieRequest String_number URL_query o w)) =
      (trace w ++ [EvFetch req reply])%list /\
    href (req_url req) = BASE_URL ++ path o /\
    req_method req = match method o with Some m => m | None => GET end /\
    req_headers req =
      app [("Authorization", "Bearer " ++ token_of w);
           ("Accept", "application/json")]
          (if sends_body o then [("Content-Type", "application/json")]
           else []) /\
    req_body req = (if sends_body o then body o else None).
Proof.
  intros Htok. rewrite tessieRequest_run by exact Htok. cbn [snd].
  do 2 eexists. split; [apply answered_trace|].
  unfold request_for, sends_body.
  cbn [req_url req_method req_headers req_body].
  split.
  { destruct (params o) as [ps|]; [rewrite append_params_href|]; reflexivity. }
  split; [reflexivity|].
  destruct (body o) as [b|], (method o) as [[|]|]; split; reflexivity.
Qed.

(** X11.  A response with a status in 200..299 is decoded by its content
    type: when the header mentions [application/json] the result is the
    parsed body, or the parser's error when the body does not parse;
    otherwise, the header missing included, the result is the raw text
    wrapped as [{ raw: text }], never an error. *)
Theorem tessieRequest_success (o : TessieRequestOptions number)
  (w : World number) (r : Response number) :
  has_token w = true ->
  result (remote w (trace w) (request_for String_number URL_query o (token_of w)))
    = Resolved r ->
  resp_ok r = true ->
  fst (tessieRequest String_number URL_query o w) =
    match resp_content_type r with
    | Some t =>
        if includes t "application/json"
        then match resp_json r with
             | fulfilled value => Normal value
             | rejected reason => Throw reason
             end
        else Normal (JObject [("raw", JString (resp_text r))])
    | None => Normal (JObject [("raw", JString (resp_text r))])
    end.
Proof.
  intros Htok Hres Hok. rewrite tessieRequest_run by exact Htok. cbn [fst].
  unfold settle_reply, settle_response. rewrite Hres, Hok. cbn [negb].
  destruct (resp_content_type r) as [t|]; reflexivity.
Qed.

(** X12.  With a token, one call of [tessieRequest] sends one request, in
    every outcome, and changes nothing but the clock and the log: the
    environment and the service are as before and the clock has advanced by
    the duration of the exchange.  When [fetch] itself rejects, that error
    is thrown on unchanged. *)
Theorem tessieRequest_sends_once (o : TessieRequestOptions number)
  (w : World number) :
  has_token w = true ->
  exists req reply,
    trace (snd (tessieRequest String_number URL_query o w)) =
      (trace w ++ [EvFetch req reply])%list /\
    env (snd (tessieRequest String_number URL_query o w)) = env w /\
    remote (snd (tessieRequest String_number URL_query o w)) = remote w /\
    now (snd (tessieRequest String_number URL_query o w)) =
      now w + Z.of_N (duration reply) /\
    (forall e, result reply = Rejected e ->
               fst (tessieRequest String_number URL_query o w) = Throw e).
Proof.
  intros Htok. rewrite tessieRequest_run by exact Htok. cbn [fst snd].
  do 2 eexists. split; [apply answered_trace|].
  split; [reflexivity|]. split; [reflexivity|]. split; [reflexivity|].
  intros e He. unfold settle_reply. rewrite He. reflexivity.
Qed.

(** ** Unit preferences *)

(** X13.  A unit preference of the environment counts exactly when it is
    one of the values of its enumeration, spelled exactly; any other value
    is treated as no preference.  Reading a preference never fails and
    leaves the world alone. *)
Theorem unit_defaults_are_validated (w : World number) :
  (forall d, @getDefaultDistanceFormat number w = (Normal (Some d), w) <->
             TESSIE_DISTANCE_FORMAT (env w) = Some (DistanceFormat_str d)) /\
  (forall t, @getDefaultTempFormat number w = (Normal (Some t), w) <->
             TESSIE_TEMP_FORMAT (env w) = Some (TemperatureFormat_str t)) /\
  (forall p, @getDefaultPressureFormat number w = (Normal (Some p), w) <->
             TESSIE_PRESSURE_FORMAT (env w) = Some (PressureFormat_str p)) /\
  (exists d t p,
      @getDefaultDistanceFormat number w = (Normal d, w) /\
      @getDefaultTempFormat number w = (Normal t, w) /\
      @getDefaultPressureFormat number w = (Normal p, w)).
Proof.
  split; [|split; [|split]].
  - intros d. unfold getDefaultDistanceFormat, bind, process_env.
    destruct (TESSIE_DISTANCE_FORMAT (env w)) as [v|].
    + destruct (String.eqb_spec v "mi") as [->|N1].
      { destruct d; split; intros H; try reflexivity; discriminate. }
      destruct (String.eqb_spec v "km") as [->|N2].
      { destruct d; split; intros H; try reflexivity; discriminate. }
      split; [discriminate|]. intros [= ->]. destruct d; contradiction.
    + split; discriminate.
  - intros t. unfold getDefaultTempFormat, bind, process_env.
    destruct (TESSIE_TEMP_FORMAT (env w)) as [v|].
    + destruct (String.eqb_spec v "f") as [->|N1].
      { destruct t; split; intros H; try reflexivity; discriminate. }
      destruct (String.eqb_spec v "c") as [->|N2].
      { destruct t; split; intros H; try reflexivity; discriminate. }
      split; [discriminate|]. intros [= ->]. destruct t; contradiction.
    + split; discriminate.
  - intros p. unfold getDefaultPressureFormat, bind, process_env.
    destruct (TESSIE_PRESSURE_FORMAT (env w)) as [v|].
    + destruct (String.eqb_spec v "psi") as [->|N1].
      { destruct p; split; intros H; try reflexivity; discriminate. }
      destruct (String.eqb_spec v "bar") as [->|N2].
      { destruct p; split; intros H; try reflexivity; discriminate. }
      destruct (String.eqb_spec v "kpa") as [->|N3].
      { destruct p; split; intros H; try reflexivity; discriminate. }
      split; [discriminate|]. intros [= ->]. destruct p; contradiction.
    + split; discriminate.
  - destruct (getDefaultDistanceFormat_pure (number:=number) w) as [d Hd].
    destruct (getDefaultTempFormat_pure (number:=number) w) as [t Ht].
    destruct (getDefaultPressureFormat_pure (number:=number) w) as [p Hp].
    exists d, t, p. auto.
Qed.

(** ** The requests of the tools *)

Ltac distinct_keys :=
  cbn [map fst app]; repeat constructor; cbn [In]; intuition discriminate.

Lemma read_params_distinct (t : ReadTool) (w : World number) :
  exists ps,
    read_params t w = (Normal ps, w) /\
    match ps with
    | Some l => NoDup (map fst l)
    | None => True
    end.
Proof.
  pose proof (getDefaultDistanceFormat_pure (number:=number) w) as Hd.
  pose proof (getDefaultTempFormat_pure (number:=number) w) as Ht.
  pose proof (getDefaultPressureFormat_pure (number:=number) w) as Hp.
  destruct t; cbn [read_params]; unfold bind.
  all: try (destruct (nullish_pure distance_format _ w Hd) as [v ->]).
  all: try (destruct (nullish_pure temperature_format _ w Ht) as [v' ->]).
  all: try (destruct (nullish_pure pressure_format _ w Hp) as [v ->]).
  all: eexists; (split; [reflexivity|]); try exact I; distinct_keys.
Qed.

(** On a URL whose string holds no query, the loop over [params] leaves
    the entries that are defined, in the order of [params]. *)
Lemma plain_query_distinct (url_path : string) (l : Params number) :
  URL_query (BASE_URL ++ url_path) = [] ->
  NoDup (map fst l) ->
  searchParams (append_params String_number
                  (new_URL URL_query (BASE_URL ++ url_path)) l)
  = present String_number l.
Proof.
  intros Hplain Hnd. rewrite append_params_fresh; [|exact Hnd|].
  - cbn [new_URL searchParams]. rewrite Hplain. reflexivity.
  - intros k _. cbn [new_URL searchParams]. rewrite Hplain. intros [].
Qed.

(** X14.  With a token, a read tool sends exactly one request: a [GET] of
    its own path, without a body.  When the URL of that path holds no query
    of its own, the query of the request holds the arguments that were
    given (and the unit preferences that apply), each stringified, and no
    key for an argument that was left out.  The tool returns the service's
    answer as it was decoded, and fails with the error of the exchange
    otherwise. *)
Theorem read_tool_request (t : ReadTool) (w : World number) :
  has_token w = true ->
  exists ps req reply,
    read_params t w = (Normal ps, w) /\
    trace (snd (read_tool String_number URL_query t w)) =
      (trace w ++ [EvFetch req reply])%list /\
    req_method req = GET /\
    href (req_url req) = BASE_URL ++ read_path t /\
    req_body req = None /\
    (URL_query (BASE_URL ++ read_path t) = [] ->
     searchParams (req_url req) =
       match ps with
       | Some l => present String_number l
       | None => []
       end) /\
    fst (read_tool String_number URL_query t w) =
      match settle_reply reply with
      | Normal data => Normal (TextContent data)
      | Throw e => Throw e
      | Unfinished => Unfinished
      end.
Proof.
  intros Htok.
  destruct (read_params_distinct t w) as (ps & Hps & Hnd).
  set (req := request_for String_number URL_query (get_options (read_path t) ps)
                (token_of w)).
  assert (Hrun : read_tool String_number URL_query t w =
                 (match settle_reply (remote w (trace w) req) with
                  | Normal data => Normal (TextContent data)
                  | Throw e => Throw e
                  | Unfinished => Unfinished
                  end, answered w req)).
  { unfold read_tool. unfold bind at 1. rewrite Hps.
    unfold bind, get. rewrite tessieRequest_run by exact Htok.
    fold (get_options (read_path t) ps). fold req.
    destruct (settle_reply _); reflexivity. }
  exists ps, req, (remote w (trace w) req).
  rewrite Hrun. cbn [fst snd].
  split; [exact Hps|].
  split; [apply answered_trace|].
  split; [reflexivity|].
  split.
  { unfold req, request_for, get_options. cbn [params path req_url].
    destruct ps as [l|]; [rewrite append_params_href|]; reflexivity. }
  split; [reflexivity|].
  split; [|reflexivity].
  intros Hplain.
  unfold req, request_for, get_options. cbn [params path req_url].
  destruct ps as [l|]; [apply plain_query_distinct; assumption|exact Hplain].
Qed.

Lemma command_params_distinct (t : CommandTool)
  (wait_for_completion : option bool) (max_attempts : option number) :
  NoDup (map fst (command_params t wait_for_completion max_attempts)).
Proof.
  unfold command_params. destruct t; cbn [command_own_params]; distinct_keys.
Qed.

(** X15.  When the wake gate has let a command tool through, the tool
    sends exactly one more request: a [POST] of [/{vin}/command/<name>]
    without a body.  When the URL of that path holds no query of its own,
    the query of the request holds the tool's own arguments and those of
    [wait_for_completion] and [max_attempts] that were given, and no key
    for one that was left out.  The tool returns the service's answer as it
    was decoded, and fails with the error of the exchange otherwise. *)
Theorem command_tool_request (t : CommandTool) (vin : string)
  (wait_for_completion : option bool) (max_attempts : option number)
  (w w1 : World number) :
  ensureAwake String_number URL_query vin w = (Normal tt, w1) ->
  exists req reply,
    trace (snd (command_tool String_number URL_query t vin wait_for_completion
                  max_attempts w)) =
      (trace w1 ++ [EvFetch req reply])%list /\
    req_method req = POST /\
    href (req_url req) = BASE_URL ++ "/" ++ vin ++ "/command/" ++ command_name t /\
    req_body req = None /\
    (URL_query (BASE_URL ++ "/" ++ vin ++ "/command/" ++ command_name t) = [] ->
     searchParams (req_url req) =
       present String_number
         (command_params t wait_for_completion max_attempts)) /\
    fst (command_tool String_number URL_query t vin wait_for_completion
           max_attempts w) =
      match settle_reply reply with
      | Normal data => Normal (TextContent data)
      | Throw e => Throw e
      | Unfinished => Unfinished
      end.
Proof.
  intros Hwake.
  assert (Htok : has_token w1 = true).
  { destruct (has_token w) eqn:Htok0.
    - destruct (ensureAwake_post String_number URL_query vin w) as (evs & Henv & _).
      rewrite Hwake in Henv. cbn [snd] in Henv.
      unfold has_token. rewrite Henv. exact Htok0.
    - rewrite ensureAwake_no_token in Hwake by exact Htok0. discriminate. }
  set (req := request_for String_number URL_query
                (command_options (command_path vin t)
                   (Some (command_params t wait_for_completion max_attempts)))
                (token_of w1)).
  assert (Hrun : command_tool String_number URL_query t vin wait_for_completion
                   max_attempts w =
                 (match settle_reply (remote w1 (trace w1) req) with
                  | Normal data => Normal (TextContent data)
                  | Throw e => Throw e
                  | Unfinished => Unfinished
                  end, answered w1 req)).
  { rewrite command_tool_run, command_run, Hwake.
    unfold post. rewrite tessieRequest_run by exact Htok.
    fold (command_options (command_path vin t)
            (Some (command_params t wait_for_completion max_attempts))).
    fold req. destruct (settle_reply _); reflexivity. }
  exists req, (remote w1 (trace w1) req).
  rewrite Hrun. cbn [fst snd].
  split; [apply answered_trace|].
  split; [reflexivity|].
  split.
  { unfold req, request_for, command_options. cbn [params path req_url].
    rewrite append_params_href. reflexivity. }
  split; [reflexivity|].
  split; [|reflexivity].
  intros Hplain.
  unfold req, request_for, command_options. cbn [params path req_url].
  apply plain_query_distinct; [exact Hplain|apply command_params_distinct].
Qed.

Lemma get_no_token url_path ps (w : World number) :
  has_token w = false ->
  get String_number URL_query url_path ps w = (Throw TOKEN_REQUIRED, w).
Proof.
  intros H. unfold get. apply tessieRequest_no_token. exact H.
Qed.

(** X16.  Without a token [get_full_status] still returns: each of its
    three slots holds the token-required message as its error, nothing is
    requested and no time passes. *)
Theorem get_full_status_without_token (vin : string) (w : World number) :
  has_token w = false ->
  let missing :=
    JObject [("error",
              JString ("TESSIE_API_TOKEN environment variable is required. " ++
                       "Get your token at https://dash.tessie.com/settings/api"))]
  in
  exists w',
    get_full_status String_number URL_query vin w =
      (Normal (TextContent (JObject [("battery", missing);
                                     ("location", missing);
                                     ("state", missing)])), w') /\
    trace w' = trace w /\ now w' = now w.
Proof.
  intros Htok missing.
  destruct (get_full_status_run String_number URL_query vin w) as (_ & _ & _ & Hrun).
  rewrite Hrun. clear Hrun.
  unfold state_read, location_read, battery_read.
  rewrite (get_no_token _ _ w Htok). cbn [fst snd].
  rewrite (get_no_token _ _ (at_time (now w) w) Htok). cbn [fst snd].
  rewrite (get_no_token _ _ (at_time (now w) (at_time (now w) w)) Htok).
  cbn [fst snd settlement slot message TOKEN_REQUIRED].
  eexists. split; [reflexivity|]. split; [reflexivity|].
  cbn [now at_time]. lia.
Qed.

(** X17.  The two data tools that write post once and directly, without
    the wake gate.  [set_drive_tag] sends its arguments as the JSON body,
    with the JSON content type, and adds nothing to the query of its URL.
    [set_charge_cost] sends the charge in the path and the cost in the
    query, without a body: the query has one entry for [cost], the
    stringified cost, and when the URL of the path holds no query of its
    own that entry is the whole query. *)
Theorem data_tools_post_once (vin : string) (w : World number) :
  has_token w = true ->
  (forall drives tag, exists req reply,
      trace (snd (set_drive_tag String_number URL_query vin drives tag w)) =
        (trace w ++ [EvFetch req reply])%list /\
      req_method req = POST /\
      href (req_url req) = BASE_URL ++ "/" ++ vin ++ "/drives/set_tag" /\
      searchParams (req_url req) =
        URL_query (BASE_URL ++ "/" ++ vin ++ "/drives/set_tag") /\
      req_body req = Some [("drives", JString drives); ("tag", JString tag)] /\
      In ("Content-Type", "application/json") (req_headers req)) /\
  (forall charge_id cost, exists req reply,
      trace (snd (set_charge_cost String_number URL_query vin charge_id cost w)) =
        (trace w ++ [EvFetch req reply])%list /\
      req_method req = POST /\
      href (req_url req) =
        BASE_URL ++ "/" ++ vin ++ "/charges/" ++ charge_id ++ "/set_cost" /\
      entries "cost" (searchParams (req_url req)) =
        [("cost", String_number cost)] /\
      (URL_query (BASE_URL ++ "/" ++ vin ++ "/charges/" ++ charge_id ++
                  "/set_cost") = [] ->
       searchParams (req_url req) = [("cost", String_number cost)]) /\
      req_body req = None).
Proof.
  intros Htok. split.
  - intros drives tag. unfold set_drive_tag, bind, post.
    rewrite tessieRequest_run by exact Htok.
    do 2 eexists. split; [destruct (settle_reply _); apply answered_trace|].
    cbn. repeat split; auto.
  - intros charge_id cost. unfold set_charge_cost, bind, post.
    rewrite tessieRequest_run by exact Htok.
    do 2 eexists. split; [destruct (settle_reply _); apply answered_trace|].
    unfold request_for.
    cbn [params path method body req_url req_method req_body append_params
         fold_left snd fst searchParams_set searchParams href new_URL
         Method_eqb ToString].
    split; [reflexivity|]. split; [reflexivity|].
    split; [apply entries_set_first_same|].
    split; [|reflexivity].
    intros Hplain. rewrite Hplain. reflexivity.
Qed.

(** X18.  When the status request is answered and decoded, [isVehicleAwake]
    says [true] exactly when the answer is a JSON object whose [status]
    member is the string ["awake"], and [false] for every other answer.
    An answer with a status in 200..299 that is not announced as JSON is
    such an other answer: it counts as "not awake", it is no error. *)
Theorem isVehicleAwake_reads_status (vin : string) (w : World number)
  (r : Response number) (data : Json number) :
  has_token w = true ->
  result (remote w (trace w) (status_check String_number URL_query vin w)) = Resolved r ->
  settle_response r = Normal data ->
  fst (isVehicleAwake String_number URL_query vin w) = Normal (status_is_awake data) /\
  (status_is_awake data = true <->
   exists members, data = JObject members /\
                   member "status" members = Some (JString "awake")) /\
  (includes (match resp_content_type r with Some t => t | None => "" end)
            "application/json" = false ->
   resp_ok r = true ->
   fst (isVehicleAwake String_number URL_query vin w) = Normal false).
Proof.
  intros Htok Hres Hdata.
  rewrite isVehicleAwake_run by exact Htok. cbn [fst].
  unfold check_outcome, settle_reply. rewrite Hres.
  split; [rewrite Hdata; reflexivity|]. split.
  - unfold status_is_awake. split.
    + destruct data as [| | | |items|members]; try discriminate.
      destruct (member "status" members) as [[| | |s| |]|] eqn:Hm;
        try discriminate.
      intros Hs. apply String.eqb_eq in Hs. subst s.
      exists members. split; [reflexivity|exact Hm].
    + intros (members & -> & ->). reflexivity.
  - intros Hct Hok. unfold settle_response. rewrite Hok, Hct. reflexivity.
Qed.

(** X19.  With a token, [get_full_status] sends its three reads whatever
    becomes of each, in the order battery, location, state, and fills every
    slot from the exchange of its own position: the payload when that
    exchange succeeded, its error message otherwise. *)
Theorem get_full_status_is_positional (vin : string) (w : World number) :
  has_token w = true ->
  exists e1 e2 e3 w',
    get_full_status String_number URL_query vin w =
      (Normal (TextContent
         (JObject [("battery", slot (settlement (event_outcome e1)));
                   ("location", slot (settlement (event_outcome e2)));
                   ("state", slot (settlement (event_outcome e3)))])), w') /\
    trace w' = (trace w ++ [e1; e2; e3])%list /\
    is_fetch GET (BASE_URL ++ "/" ++ vin ++ "/battery") e1 = true /\
    is_fetch GET (BASE_URL ++ "/" ++ vin ++ "/location") e2 = true /\
    is_fetch GET (BASE_URL ++ "/" ++ vin ++ "/state") e3 = true.
Proof.
  intros Htok.
  destruct (get_full_status_run String_number URL_query vin w) as (_ & _ & _ & Hrun).
  destruct (get_with_token String_number URL_query (battery_path vin) None w Htok)
    as (e1 & Ht1 & Hf1 & He1 & Ho1).
  fold (battery_read String_number URL_query vin w) in Ht1, He1.
  assert (Htok1 : has_token (at_time (now w) (battery_read String_number URL_query vin w))
                  = true).
  { unfold has_token, at_time. cbn [env]. rewrite He1. exact Htok. }
  destruct (get_with_token String_number URL_query (location_path vin) None _ Htok1)
    as (e2 & Ht2 & Hf2 & He2 & Ho2).
  fold (location_read String_number URL_query vin w) in Ht2, He2.
  assert (Htok2 : has_token (at_time (now w) (location_read String_number URL_query vin w))
                  = true).
  { unfold has_token, at_time. cbn [env]. rewrite He2. exact Htok1. }
  destruct (get_with_token String_number URL_query (state_path vin) use_cache_true _ Htok2)
    as (e3 & Ht3 & Hf3 & _ & Ho3).
  fold (state_read String_number URL_query vin w) in Ht3.
  exists e1, e2, e3. eexists.
  split; [rewrite Hrun, Ho1, Ho2, Ho3; reflexivity|].
  split; [|repeat split; assumption].
  unfold at_time at 1. cbn [trace]. rewrite Ht3.
  unfold at_time at 1. cbn [trace]. rewrite Ht2.
  unfold at_time at 1. cbn [trace]. rewrite Ht1.
  rewrite <- !app_assoc. reflexivity.
Qed.

End Handlers.

(** * More scenarios *)
Module HandlerScenario.

Import Scenario.

(** The vehicle sleeps and the service refuses every POST with 503. *)
Definition refusing_service : list (Event num) -> Request num -> Reply num :=
  fun _ req =>
    match req_method req with
    | GET => json_reply 40 200 "asleep" (status_body "asleep")
    | POST =>
        {| duration := 40;
           result := Resolved {| resp_status := 503;
                                 resp_content_type := Some "text/plain";
                                 resp_text := "service unavailable";
                                 resp_json := rejected (Error "invalid json") |} |}
    end.

Definition refusing_world : World num := world (Some "tok") refusing_service.

(** A service that answers in plain text. *)
Definition plain_reply : Reply num :=
  {| duration := 12;
     result := Resolved {| resp_status := 200;
                           resp_content_type := Some "text/html; charset=utf-8";
                           resp_text := "<html>maintenance</html>";
                           resp_json := rejected (Error "invalid json") |} |}.

Definition plain_world : World num := world (Some "tok") (fun _ _ => plain_reply).

(** *** Resources *)

Lemma ReadResource_dispatch_witness :
  vin0 <> "" /\ has_line_terminator vin0 = false /\
  ReadResource String_Z query_of
    (match_resource_uri "tessie://5YJ3E1EA7KF000001/state")
  = get String_Z query_of "/5YJ3E1EA7KF000001/state"
        (Some [("use_cache", Some (SBoolean true))]).
Proof.
  assert (Hne : vin0 <> "") by discriminate.
  split; [exact Hne|]. split; [reflexivity|].
  exact (proj1 (ReadResource_dispatch String_Z query_of vin0 Hne eq_refl)).
Defined.

Lemma unknown_resource_is_refused_witness :
  "vehicle://fleet" <> "tessie://vehicles" /\
  ReadResourceRequest String_Z query_of "vehicle://fleet" awake_world =
    (Throw (Error "Unknown resource URI: vehicle://fleet"), awake_world).
Proof.
  assert (H1 : "vehicle://fleet" <> "tessie://vehicles") by discriminate.
  split; [exact H1|].
  apply (unknown_resource_is_refused String_Z query_of "vehicle://fleet" awake_world H1).
  intros vin _ _. split; discriminate.
Defined.

(** A slash in the captured text is kept, and an empty capture is no
    match. *)
Example nested_and_empty_captures :
  match_resource_uri "tessie://a/state/status" = uri_status "a/state" /\
  match_resource_uri "tessie:///state" = uri_unknown "tessie:///state".
Proof. split; reflexivity. Qed.

(** *** Wake *)

Lemma ensureAwake_bounded_wait_witness :
  (forall tr ms, Z.of_N (lateness late_world tr ms) <= 4) /\
  (forall tr req, Z.of_N (duration (remote late_world tr req)) <= 101) /\
  now (snd (ensureAwake String_Z query_of vin0 late_world))
  < 0 + 90000 + 3000 + 4 + 3 * 101.
Proof.
  assert (Hlate : forall (tr : list (Event num)) (ms : Z),
             Z.of_N (lateness late_world tr ms) <= 4).
  { intros tr ms. cbn. lia. }
  assert (Hdur : forall (tr : list (Event num)) (req : Request num),
             Z.of_N (duration (remote late_world tr req)) <= 101).
  { intros tr req. cbn. lia. }
  split; [exact Hlate|]. split; [exact Hdur|].
  exact (proj2 (ensureAwake_bounded_wait String_Z query_of vin0 late_world
                  4 101 Hlate Hdur)).
Defined.

Lemma ensureAwake_aborts_on_failure_witness :
  has_token refusing_world = true /\
  ensureAwake String_Z query_of vin0 refusing_world =
    (Throw (Error "Tessie API error 503: service unavailable"),
     polling_began String_Z query_of vin0 refusing_world) /\
  length (trace (polling_began String_Z query_of vin0 refusing_world)) = 2%nat.
Proof.
  split; [reflexivity|].
  destruct (proj2 (ensureAwake_aborts_on_failure String_Z query_of vin0 refusing_world
                     (Error "Tessie API error 503: service unavailable")
                     eq_refl) eq_refl eq_refl)
    as (check & wake & Hrun & Htrace & _ & _).
  split; [exact Hrun|]. rewrite Htrace. reflexivity.
Defined.

Lemma VinSchema_yields_nonempty_witness :
  VinSchema (Some "") (with_default (Some "DEFAULT")) =
    (Normal "DEFAULT", with_default (Some "DEFAULT")) /\
  "DEFAULT" <> "".
Proof.
  split; [reflexivity|].
  exact (proj1 (VinSchema_yields_nonempty (Some "") (with_default (Some "DEFAULT"))
                  (with_default (Some "DEFAULT")) "DEFAULT" eq_refl)).
Defined.

(** *** Transport client *)

(** A GET that is handed a body. *)
Definition get_with_body : TessieRequestOptions num :=
  {| method := None; path := "/vehicles"; params := None;
     body := Some [("ignored", JBoolean true)] |}.

Lemma tessieRequest_request_shape_witness :
  has_token awake_world = true /\
  exists req reply,
    trace (snd (tessieRequest String_Z query_of get_with_body awake_world)) =
      [EvFetch req reply] /\
    req_method req = GET /\
    req_headers req = [("Authorization", "Bearer tok");
                       ("Accept", "application/json")] /\
    req_body req = None.
Proof.
  split; [reflexivity|].
  destruct (tessieRequest_request_shape String_Z query_of get_with_body awake_world
              eq_refl) as (req & reply & Htr & _ & Hm & Hh & Hb).
  exists req, reply. repeat split; assumption.
Defined.

Lemma tessieRequest_success_witness :
  has_token plain_world = true /\
  result (remote plain_world (trace plain_world)
            (request_for String_Z query_of lock_options (token_of plain_world)))
    = result plain_reply /\
  fst (tessieRequest String_Z query_of lock_options plain_world) =
    Normal (JObject [("raw", JString "<html>maintenance</html>")]).
Proof.
  split; [reflexivity|]. split; [reflexivity|].
  exact (tessieRequest_success String_Z query_of lock_options plain_world _
           eq_refl eq_refl eq_refl).
Defined.

Lemma tessieRequest_sends_once_witness :
  has_token unavailable_world = true /\
  length (trace (snd (tessieRequest String_Z query_of lock_options unavailable_world)))
  = 1%nat.
Proof.
  split; [reflexivity|].
  destruct (tessieRequest_sends_once String_Z query_of lock_options unavailable_world
              eq_refl) as (req & reply & Htr & _).
  rewrite Htr. reflexivity.
Defined.

(** A status answer that is not JSON counts as "not awake". *)
Example plain_status_is_not_awake :
  fst (isVehicleAwake String_Z query_of vin0 plain_world) = Normal false.
Proof. reflexivity. Qed.

(** *** Tools *)

Definition psi_world : World num :=
  {| env := {| TESSIE_API_TOKEN := Some "tok"; TESSIE_DEFAULT_VIN := None;
               TESSIE_DISTANCE_FORMAT := Some "miles";
               TESSIE_TEMP_FORMAT := None;
               TESSIE_PRESSURE_FORMAT := Some "psi" |};
     now := 0; remote := awake_service; lateness := fun _ _ => 0%N;
     trace := [] |}.

Lemma read_tool_request_witness :
  has_token psi_world = true /\
  query_of (BASE_URL ++
            read_path (get_tire_pressure vin0 None (Some 1700000000) None))
    = [] /\
  exists req reply,
    trace (snd (read_tool String_Z query_of
                  (get_tire_pressure vin0 None (Some 1700000000) None)
                  psi_world)) = [EvFetch req reply] /\
    searchParams (req_url req) =
      [("pressure_format", "psi"); ("from", "1700000000")].
Proof.
  split; [reflexivity|]. split; [reflexivity|].
  destruct (read_tool_request String_Z query_of
              (get_tire_pressure vin0 None (Some 1700000000) None)
              psi_world eq_refl)
    as (ps & req & reply & Hps & Htr & _ & _ & _ & Hq & _).
  exists req, reply. split; [exact Htr|].
  rewrite (Hq eq_refl). injection Hps as <-. reflexivity.
Defined.

(** A vehicle identifier with a [?] in it turns the rest of the path into a
    query: the one request of [get_location] then carries it. *)
Example vin_with_query :
  map (fun e => match e with
                | EvFetch req _ => (href (req_url req), searchParams (req_url req))
                | EvTimeout _ => (EmptyString, [])
                end)
      (trace (snd (read_tool String_Z query_of (get_location "X?y=1") psi_world)))
  = [("https://api.tessie.com/X?y=1/location", [("y", "1/location")])].
Proof. vm_compute. reflexivity. Qed.

(** A misspelt unit preference is no preference. *)
Example misspelt_unit_is_ignored :
  map kind (trace (snd (read_tool String_Z query_of
                          (get_battery_health vin0 None None None) psi_world)))
  = [Fetched GET "https://api.tessie.com/5YJ3E1EA7KF000001/battery_health"] /\
  fst (@getDefaultDistanceFormat num psi_world) = Normal None.
Proof. split; reflexivity. Qed.

Lemma command_tool_request_witness :
  ensureAwake String_Z query_of vin0 awake_world =
    (Normal tt, checked String_Z query_of vin0 awake_world) /\
  query_of (BASE_URL ++ "/" ++ vin0 ++ "/command/" ++
            command_name (set_seat_heat driver 2)) = [] /\
  exists req reply,
    trace (snd (command_tool String_Z query_of (set_seat_heat driver 2) vin0
                  (Some true) None awake_world)) =
      (trace (checked String_Z query_of vin0 awake_world)
       ++ [EvFetch req reply])%list /\
    searchParams (req_url req) =
      [("seat", "driver"); ("level", "2"); ("wait_for_completion", "true")].
Proof.
  split; [reflexivity|]. split; [reflexivity|].
  destruct (command_tool_request String_Z query_of (set_seat_heat driver 2) vin0
              (Some true) None awake_world
              (checked String_Z query_of vin0 awake_world) eq_refl)
    as (req & reply & Htr & _ & _ & _ & Hq & _).
  exists req, reply. split; [exact Htr|exact (Hq eq_refl)].
Defined.

Lemma get_full_status_without_token_witness :
  has_token unconfigured_world = false /\
  exists w' : World num,
    fst (get_full_status String_Z query_of vin0 unconfigured_world) =
      Normal (TextContent (JObject
        [("battery", JObject [("error", JString (message TOKEN_REQUIRED))]);
         ("location", JObject [("error", JString (message TOKEN_REQUIRED))]);
         ("state", JObject [("error", JString (message TOKEN_REQUIRED))])])) /\
    trace w' = [].
Proof.
  split; [reflexivity|].
  destruct (get_full_status_without_token String_Z query_of vin0 unconfigured_world
              eq_refl) as (w' & Hrun & Htr & _).
  exists w'. split; [rewrite Hrun; reflexivity|exact Htr].
Defined.

Lemma data_tools_post_once_witness :
  has_token slow_world = true /\
  query_of (BASE_URL ++ "/" ++ vin0 ++ "/charges/" ++ "c42" ++ "/set_cost")
    = [] /\
  exists req reply,
    trace (snd (set_charge_cost String_Z query_of vin0 "c42" 1250 slow_world)) =
      [EvFetch req reply] /\
    href (req_url req) =
      "https://api.tessie.com/5YJ3E1EA7KF000001/charges/c42/set_cost" /\
    searchParams (req_url req) = [("cost", "1250")].
Proof.
  split; [reflexivity|]. split; [reflexivity|].
  destruct (proj2 (data_tools_post_once String_Z query_of vin0 slow_world
                     eq_refl) "c42" 1250)
    as (req & reply & Htr & _ & Hh & _ & Hq & _).
  exists req, reply. split; [exact Htr|]. split; [exact Hh|exact (Hq eq_refl)].
Defined.

Lemma isVehicleAwake_reads_status_witness :
  has_token plain_world = true /\
  fst (isVehicleAwake String_Z query_of vin0 plain_world) = Normal false.
Proof.
  split; [reflexivity|].
  exact (proj2 (proj2 (isVehicleAwake_reads_status String_Z query_of vin0 plain_world
                         _ _ eq_refl eq_refl eq_refl)) eq_refl eq_refl).
Defined.

Lemma get_full_status_is_positional_witness :
  has_token location_down_world = true /\
  exists e1 e2 e3 : Event num,
    trace (snd (get_full_status String_Z query_of vin0 location_down_world)) =
      [e1; e2; e3] /\
    slot (settlement (event_outcome e2)) =
      JObject [("error", JString "Tessie API error 500: internal error")].
Proof.
  split; [reflexivity|].
  destruct (get_full_status_is_positional String_Z query_of vin0 location_down_world
              eq_refl) as (e1 & e2 & e3 & w' & Hrun & Htr & _ & _ & _).
  exists e1, e2, e3. rewrite Hrun. cbn [snd]. split; [exact Htr|].
  apply (f_equal fst) in Hrun. cbn [fst] in Hrun.
  vm_compute in Hrun. injection Hrun as _ H2 _. symmetry. exact H2.
Defined.

End HandlerScenario.
